(** * Landing-assist controller (landing_assist/script.js)

    A shallow embedding of [class LandingAssistSystem]: its fields, the
    methods bound to the page's buttons, and the callbacks it hands to
    [setInterval] / [setTimeout].

    - A JavaScript Number is an IEEE-754 binary64 value, so the numeric
      fields are primitive floats ([PrimFloat.float]) and [+ - * / < sqrt]
      are the primitive binary64 operations.  Universal facts about them are
      derived from the specification of the primitives ([FloatAxioms]).
    - The page is single threaded: a run is a sequence of events (a click, or
      one firing of one timer), each handled to completion.
    - [Math.random()] is an input of the handler that draws it.
    - Only the part of the DOM that the script reads back or that the
      properties talk about is kept: the [disabled] flag of the three
      buttons and the three cells of the landing-info panel. *)

From Stdlib Require Import ZArith List Bool Lia Floats.
From Stdlib Require String Ascii.
Import ListNotations.
Import String.StringSyntax.

Set Warnings "-inexact-float".

Local Open Scope float_scope.

(** ** JavaScript Number helpers *)

Module Number.

(** An integer-valued Number (a loop counter) as a binary64 value; exact for
    the magnitudes below [2^53] used here. *)
Definition of_Z (n : Z) : float :=
  match n with
  | Z0 => zero
  | Zpos _ => of_uint63 (Uint63.of_Z n)
  | Zneg p => - of_uint63 (Uint63.of_Z (Zpos p))
  end.

(** [Math.max(a, b)]: NaN if either argument is NaN, and [+0] is larger than
    [-0]. *)
Definition Math_max (a b : float) : float :=
  if is_nan a || is_nan b then nan
  else if a <? b then b
  else if b <? a then a
  else if get_sign a then b else a.

(** [Math.min(a, b)]: NaN if either argument is NaN, and [-0] is smaller than
    [+0]. *)
Definition Math_min (a b : float) : float :=
  if is_nan a || is_nan b then nan
  else if a <? b then a
  else if b <? a then b
  else if get_sign a then a else b.

(** [Math.round(x)]: the integral Number closest to [x], ties towards
    [+Infinity]; NaN, the infinities, the zeros and integral values are
    returned as they are, and a result of zero keeps the sign of [x]. *)
Definition Math_round (x : float) : float :=
  match Prim2SF x with
  | S754_finite s m e =>
      if (0 <=? e)%Z then x
      else
        let k := (- e)%Z in
        let sm := if s then Zneg m else Zpos m in
        let n := Z.shiftr (2 * sm + Z.shiftl 1 k) (k + 1) in
        if (n =? 0)%Z then (if s then neg_zero else zero) else of_Z n
  | _ => x
  end.

(** [Math.pow(v, 2)], taken as the correctly rounded square. *)
Definition Math_pow2 (v : float) : float := v * v.

End Number.

Import Number.

(** ** Data model *)

(** The object literals [{ x, y }] held in [currentPosition] and
    [selectedTarget]. *)
Record Point := mkPoint { x : float; y : float }.

(** The five string literals ever stored in [this.flightStatus]. *)
Inductive FlightStatus :=
| StFlying        (* '飞行中'     *)
| StTakingOff     (* '起飞中'     *)
| StAutoLanding   (* '自动降落中' *)
| StLanded        (* '已降落'     *)
| StManual.       (* '手动模式'   *)

(** Text of [#info-eta]: [`${Math.round(eta)}s`] or ['--']. *)
Inductive EtaText :=
| EtaSeconds (rounded : float)
| EtaDashes.

(** The local [safetyLevel] of [updateLandingInfo]. *)
Inductive SafetyLevel := high | medium | low.

(** Text of [#info-coords]: the rounded coordinates or ['--']. *)
Inductive CoordsText :=
| CoordsXY (rx ry : float)
| CoordsDashes.

(** What [updateLandingInfo] writes into the landing-info panel. *)
Record LandingInfo := mkInfo {
  info_coords : CoordsText;
  info_eta : EtaText;
  info_safety : SafetyLevel
}.

(** The part of the page the script writes and the user sees as command
    availability. *)
Record Dom := mkDom {
  land_btn_disabled : bool;
  takeoff_btn_disabled : bool;
  cancel_btn_disabled : bool;
  info_panel : LandingInfo
}.

(** Fields of [LandingAssistSystem], the page, and the timers the object has
    registered.  A [setInterval] made by [simulateLanding] is a slot of
    [landingIntervals]: [Some step] while it is live ([step] is the
    closure's counter), [None] once [clearInterval] was called on it; the
    slot's index is the timer handle.  [takeoffTimeouts] counts the pending
    3000 ms timeouts of [takeoff]. *)
Record System := mkSystem {
  selectedTarget : option Point;
  currentPosition : Point;
  altitude : float;
  speed : float;
  battery : float;
  flightStatus : FlightStatus;
  isLanding : bool;
  isManualMode : bool;
  dom : Dom;
  landingIntervals : list (option Z);
  takeoffTimeouts : nat
}.

(** Field assignments. *)
Definition set_selectedTarget (v : option Point) (s : System) : System :=
  mkSystem v (currentPosition s) (altitude s) (speed s) (battery s)
    (flightStatus s) (isLanding s) (isManualMode s) (dom s)
    (landingIntervals s) (takeoffTimeouts s).

Definition set_currentPosition (v : Point) (s : System) : System :=
  mkSystem (selectedTarget s) v (altitude s) (speed s) (battery s)
    (flightStatus s) (isLanding s) (isManualMode s) (dom s)
    (landingIntervals s) (takeoffTimeouts s).

Definition set_altitude (v : float) (s : System) : System :=
  mkSystem (selectedTarget s) (currentPosition s) v (speed s) (battery s)
    (flightStatus s) (isLanding s) (isManualMode s) (dom s)
    (landingIntervals s) (takeoffTimeouts s).

Definition set_speed (v : float) (s : System) : System :=
  mkSystem (selectedTarget s) (currentPosition s) (altitude s) v (battery s)
    (flightStatus s) (isLanding s) (isManualMode s) (dom s)
    (landingIntervals s) (takeoffTimeouts s).

Definition set_battery (v : float) (s : System) : System :=
  mkSystem (selectedTarget s) (currentPosition s) (altitude s) (speed s) v
    (flightStatus s) (isLanding s) (isManualMode s) (dom s)
    (landingIntervals s) (takeoffTimeouts s).

Definition set_flightStatus (v : FlightStatus) (s : System) : System :=
  mkSystem (selectedTarget s) (currentPosition s) (altitude s) (speed s)
    (battery s) v (isLanding s) (isManualMode s) (dom s)
    (landingIntervals s) (takeoffTimeouts s).

Definition set_isLanding (v : bool) (s : System) : System :=
  mkSystem (selectedTarget s) (currentPosition s) (altitude s) (speed s)
    (battery s) (flightStatus s) v (isManualMode s) (dom s)
    (landingIntervals s) (takeoffTimeouts s).

Definition set_isManualMode (v : bool) (s : System) : System :=
  mkSystem (selectedTarget s) (currentPosition s) (altitude s) (speed s)
    (battery s) (flightStatus s) (isLanding s) v (dom s)
    (landingIntervals s) (takeoffTimeouts s).

Definition set_dom (v : Dom) (s : System) : System :=
  mkSystem (selectedTarget s) (currentPosition s) (altitude s) (speed s)
    (battery s) (flightStatus s) (isLanding s) (isManualMode s) v
    (landingIntervals s) (takeoffTimeouts s).

Definition set_landingIntervals (v : list (option Z)) (s : System) : System :=
  mkSystem (selectedTarget s) (currentPosition s) (altitude s) (speed s)
    (battery s) (flightStatus s) (isLanding s) (isManualMode s) (dom s)
    v (takeoffTimeouts s).

Definition set_takeoffTimeouts (v : nat) (s : System) : System :=
  mkSystem (selectedTarget s) (currentPosition s) (altitude s) (speed s)
    (battery s) (flightStatus s) (isLanding s) (isManualMode s) (dom s)
    (landingIntervals s) v.

(** [document.getElementById(id).disabled = v] for the three buttons. *)
Definition set_buttons (land takeoff_ cancel : bool) (s : System) : System :=
  set_dom (mkDom land takeoff_ cancel (info_panel (dom s))) s.

Definition set_land_btn (land : bool) (s : System) : System :=
  set_dom (mkDom land (takeoff_btn_disabled (dom s))
             (cancel_btn_disabled (dom s)) (info_panel (dom s))) s.

Definition set_info_panel (i : LandingInfo) (s : System) : System :=
  set_dom (mkDom (land_btn_disabled (dom s)) (takeoff_btn_disabled (dom s))
             (cancel_btn_disabled (dom s)) i) s.

(** Overwrite slot [h] of a timer table (nothing happens past the end). *)
Fixpoint slot_set (h : nat) (v : option Z) (l : list (option Z))
  : list (option Z) :=
  match l, h with
  | [], _ => []
  | _ :: t, O => v :: t
  | a :: t, S h' => a :: slot_set h' v t
  end.

(** The live counter of timer [h], if [h] is a live timer. *)
Definition slot_get (h : nat) (l : list (option Z)) : option Z :=
  match nth_error l h with
  | Some (Some step) => Some step
  | _ => None
  end.

(** How a handler ends: it returns, or an uncaught [TypeError] leaves it
    (reading [.x] of [null]). *)
Inductive Completion := Returned | ThrewTypeError.

(** ** Methods of [LandingAssistSystem] *)

(** The values [updateLandingInfo] (lines 277-313) computes: coordinates and
    ETA of the selected target (['--'] without one), and the safety level
    from the altitude. *)
Definition landingInfo (s : System) : LandingInfo :=
  let safetyLevel :=
    if altitude s <? 20 then high
    else if altitude s <? 50 then medium
    else low in
  match selectedTarget s with
  | Some t =>
      let distance :=
        sqrt (Math_pow2 (x t - x (currentPosition s)) +
              Math_pow2 (y t - y (currentPosition s))) in
      let eta := distance / speed s in
      mkInfo (CoordsXY (Math_round (x t)) (Math_round (y t)))
             (if 0 <? eta then EtaSeconds (Math_round eta) else EtaDashes)
             safetyLevel
  | None => mkInfo CoordsDashes EtaDashes safetyLevel
  end.

Definition updateLandingInfo (s : System) : System :=
  set_info_panel (landingInfo s) s.

(** [selectLandingTarget(x, y)] (lines 66-101): store the target, refresh
    the info panel, enable the land button. *)
Definition selectLandingTarget (tx ty : float) (s : System) : System :=
  let s1 := set_selectedTarget (Some (mkPoint tx ty)) s in
  let s2 := updateLandingInfo s1 in
  set_land_btn false s2.

(** [takeoff()] (lines 103-123): unless landing, show the take-off status
    and schedule the completion callback. *)
Definition takeoff (s : System) : System :=
  if isLanding s then s
  else
    let s1 := set_flightStatus StTakingOff s in
    set_takeoffTimeouts (S (takeoffTimeouts s1)) s1.

(** The callback [takeoff] passes to [setTimeout(..., 3000)] (lines
    110-120). *)
Definition takeoffCompleted (s : System) : System :=
  let s1 := set_flightStatus StFlying s in
  let s2 := set_altitude 120 s1 in
  set_currentPosition (mkPoint 400 300) s2.

(** [simulateLanding()] (lines 144-182): [let step = 0] and a new
    [setInterval]. *)
Definition simulateLanding (s : System) : System :=
  set_landingIntervals (landingIntervals s ++ [Some 0%Z]) s.

(** [startLanding()] (lines 125-142). *)
Definition startLanding (s : System) : System :=
  match selectedTarget s with
  | None => s
  | Some _ =>
      if isLanding s then s
      else
        let s1 := set_isLanding true s in
        let s2 := set_flightStatus StAutoLanding s1 in
        let s3 := set_buttons true true false s2 in
        simulateLanding s3
  end.

(** [completeLanding()] (lines 184-210). *)
Definition completeLanding (s : System) : System :=
  let s1 := set_isLanding false s in
  let s2 := set_flightStatus StLanded s1 in
  let s3 := set_altitude 0 s2 in
  let s4 := set_speed 0 s3 in
  let s5 := updateLandingInfo s4 in
  let s6 := set_buttons true false true s5 in
  set_selectedTarget None s6.

Definition landingSteps : Z := 100.

(** The callback [simulateLanding] passes to [setInterval(..., 100)] (lines
    149-181), for the timer with handle [h]; [r1], [r2] are its two
    [Math.random()] draws.  A handle that is not live fires nothing.  The
    counter [step] holds small integers, so it is kept as an integer and
    converted where it enters the arithmetic. *)
Definition landingIntervalTick (h : nat) (r1 r2 : float) (s : System)
  : Completion * System :=
  match slot_get h (landingIntervals s) with
  | None => (Returned, s)
  | Some step0 =>
      let step := (step0 + 1)%Z in
      let s0 :=
        set_landingIntervals (slot_set h (Some step) (landingIntervals s)) s in
      if (landingSteps <=? step)%Z then
        let s1 := completeLanding s0 in
        (Returned,
         set_landingIntervals (slot_set h None (landingIntervals s1)) s1)
      else
        let s1 := set_altitude (120 - of_Z step * 1.2) s0 in
        let s2 := set_speed (5.2 - of_Z step * 0.02) s1 in
        match selectedTarget s2 with
        | None => (ThrewTypeError, s2)
        | Some t =>
            let p := currentPosition s2 in
            let dx := (x t - x p) / of_Z (landingSteps - step) in
            let dy := (y t - y p) / of_Z (landingSteps - step) in
            let px := x p + dx in
            let py := y p + dy in
            let px := px + (r1 - 0.5) * 2 in
            let py := py + (r2 - 0.5) * 2 in
            let s3 := set_currentPosition (mkPoint px py) s2 in
            (Returned,
             if (Z.rem step 10 =? 0)%Z then updateLandingInfo s3 else s3)
        end
  end.

(** [cancelLanding()] (lines 212-227). *)
Definition cancelLanding (s : System) : System :=
  if isLanding s then
    let s1 := set_isLanding false s in
    let s2 := set_flightStatus StFlying s1 in
    set_buttons (match selectedTarget s2 with Some _ => false | None => true end)
                false true s2
  else s.

(** [toggleManualMode()] (lines 229-246). *)
Definition toggleManualMode (s : System) : System :=
  let s1 := set_isManualMode (negb (isManualMode s)) s in
  if isManualMode s1 then set_flightStatus StManual s1
  else set_flightStatus StFlying s1.

(** The click listener [setupEventListeners] puts on [#camera-overlay]
    (lines 33-41); [(cx, cy)] is the click offset inside the overlay. *)
Definition overlayClick (cx cy : float) (s : System) : System :=
  if isManualMode s || isLanding s then s
  else selectLandingTarget cx cy s.

(** The [change] listener of the landing-mode radios (lines 50-55;
    [landingMode] itself is never read again, so it is not kept). *)
Definition landingModeChange (s : System) : System := updateLandingInfo s.

(** First callback of [startSimulation] (lines 415-439, every 100 ms);
    [rx ry ra rs] are the [Math.random()] draws, the last two used only in
    the status ['飞行中']. *)
Definition driftTick (rx ry ra rs : float) (s : System) : System :=
  if isLanding s || isManualMode s then s
  else
    let p := currentPosition s in
    let px := x p + (rx - 0.5) * 0.5 in
    let py := y p + (ry - 0.5) * 0.5 in
    let px := Math_max 10 (Math_min 790 px) in
    let py := Math_max 10 (Math_min 590 py) in
    let s1 := set_currentPosition (mkPoint px py) s in
    match flightStatus s1 with
    | StFlying =>
        let a := altitude s1 + (ra - 0.5) * 0.2 in
        let v := speed s1 + (rs - 0.5) * 0.1 in
        let s2 := set_altitude a s1 in
        let s3 := set_speed v s2 in
        let s4 := set_altitude (Math_max 115 (Math_min 125 (altitude s3))) s3 in
        set_speed (Math_max 4.5 (Math_min 6.0 (speed s4))) s4
    | _ => s1
    end.

(** Second callback of [startSimulation] (lines 442-447, every 5000 ms). *)
Definition batteryTick (s : System) : System :=
  match flightStatus s with
  | StLanded => s
  | _ => set_battery (Math_max 0 (battery s - 0.01)) s
  end.

(** The constructor (lines 3-16) followed by [init()], on a page whose
    buttons and info panel are in the state [page]. *)
Definition newLandingAssistSystem (page : Dom) : System :=
  mkSystem None (mkPoint 400 300) 120 5.2 85 StFlying false false page [] 0.

(** ** Events and runs *)

(** What the event loop can deliver: a click on the overlay, a press of one
    of the four buttons or a change of the landing-mode radio (each stands
    for a call of the bound listener, from the page or through
    [window.landingSystem]; the [disabled] flags are recorded, they do not
    filter events), a firing of one of the two [startSimulation] intervals
    or of a descent interval, with the [Math.random()] values it draws, and
    the expiry of a take-off timeout. *)
Inductive Event :=
| OverlayClick (cx cy : float)
| TakeoffBtn
| LandBtn
| CancelBtn
| ManualBtn
| LandingModeRadio
| DriftInterval (rx ry ra rs : float)
| BatteryInterval
| LandingInterval (h : nat) (r1 r2 : float)
| TakeoffDone.

(** One turn of the event loop. *)
Definition handle (e : Event) (s : System) : Completion * System :=
  match e with
  | OverlayClick cx cy => (Returned, overlayClick cx cy s)
  | TakeoffBtn => (Returned, takeoff s)
  | LandBtn => (Returned, startLanding s)
  | CancelBtn => (Returned, cancelLanding s)
  | ManualBtn => (Returned, toggleManualMode s)
  | LandingModeRadio => (Returned, landingModeChange s)
  | DriftInterval rx ry ra rs => (Returned, driftTick rx ry ra rs s)
  | BatteryInterval => (Returned, batteryTick s)
  | LandingInterval h r1 r2 => landingIntervalTick h r1 r2 s
  | TakeoffDone =>
      match takeoffTimeouts s with
      | O => (Returned, s)
      | S n => (Returned, takeoffCompleted (set_takeoffTimeouts n s))
      end
  end.

Definition step (e : Event) (s : System) : System := snd (handle e s).

(** The state after a sequence of events (an uncaught exception ends only
    the handler that raised it). *)
Definition run (es : list Event) (s : System) : System :=
  fold_left (fun st e => step e st) es s.

(** States the page can be in. *)
Inductive Reachable (page : Dom) : System -> Prop :=
| reach_init : Reachable page (newLandingAssistSystem page)
| reach_step : forall s e, Reachable page s -> Reachable page (step e s).

(** The operational state of the controller, as the guards of the script
    read it: [isLanding] is the test for a descent in progress
    ([takeoff], [startLanding], [cancelLanding], the click listener and the
    drift callback), ['已降落'] the test of the battery callback, and
    ['起飞中'] is shown between [takeoff()] and its timeout. *)
Inductive Mode := Flying | TakingOff | Landing | Landed.

Definition mode (s : System) : Mode :=
  if isLanding s then Landing
  else match flightStatus s with
       | StLanded => Landed
       | StTakingOff => TakingOff
       | _ => Flying
       end.

Inductive ControlMode := Auto | Manual.

Definition controlMode (s : System) : ControlMode :=
  if isManualMode s then Manual else Auto.

(** ** Vocabulary of the properties *)

(** A value [Math.random()] can return. *)
Definition unit_draw (r : float) : bool := (0 <=? r) && (r <? 1).

(** A firing of the drift timer whose four draws are such values. *)
Definition drift_draws (e : Event) : bool :=
  match e with
  | DriftInterval rx ry ra rs =>
      unit_draw rx && unit_draw ry && unit_draw ra && unit_draw rs
  | _ => false
  end.

Definition between (lo hi v : float) : bool := (lo <=? v) && (v <=? hi).

(** The viewport the drift callback clamps the position to. *)
Definition in_viewport (p : Point) : bool :=
  between 10 790 (x p) && between 10 590 (y p).

(** The cruise band the drift callback clamps altitude and speed to. *)
Definition in_cruise_band (s : System) : bool :=
  between 115 125 (altitude s) && between 4.5 6.0 (speed s).

(** A command the transition table forbids in state [s]. *)
Definition illegal (e : Event) (s : System) : bool :=
  match e with
  | LandBtn =>
      match selectedTarget s with None => true | Some _ => isLanding s end
  | TakeoffBtn => isLanding s
  | CancelBtn => negb (isLanding s)
  | _ => false
  end.

(** Everything a descent reads or writes: all of the state but the status
    text and the manual flag. *)
Definition descent_view (s : System) :=
  (selectedTarget s, currentPosition s, altitude s, speed s, battery s,
   isLanding s, dom s, landingIntervals s, takeoffTimeouts s).

(** The firings of descent timer [h] with the given [Math.random()] draws. *)
Definition descent_events (h : nat) (rs : list (float * float)) : list Event :=
  map (fun r => LandingInterval h (fst r) (snd r)) rs.

(** What holds of a descent for target [t] on timer [h] after [k] steps. *)
Definition descending (t : Point) (h : nat) (k : nat) (st : System) : Prop :=
  isLanding st = true /\
  selectedTarget st = Some t /\
  slot_get h (landingIntervals st) = Some (Z.of_nat k) /\
  (h < length (landingIntervals st))%nat.

(** What the battery callback does to the charge. *)
Definition drain (b : float) : float := Math_max 0 (b - 0.01).

(** The charge after [k] drains of the initial 85. *)
Definition charge_after (k : nat) : float := Nat.iter k drain 85.

(** The number of drains that empty the battery. *)
Definition drains_to_empty : nat := 85 * 100.

(** [P] holds of [b] and of its next [n] drains. *)
Fixpoint all_drains (P : float -> bool) (n : nat) (b : float) : bool :=
  P b && match n with
         | O => true
         | S k => all_drains P k (drain b)
         end.

(** A charge the battery can hold: a percentage that a drain does not
    raise. *)
Definition charge_ok (b : float) : bool :=
  (drain b <=? b) && between 0 100 b.

(** The charge of a state is one of the drains of 85. *)
Definition known_charge (s : System) : Prop :=
  exists k, (k <= drains_to_empty)%nat /\ battery s = charge_after k.

(** ** Example runs *)

(** A page as the examples start from it: no target yet, so landing and
    cancelling are not offered and the info panel shows dashes. *)
Definition example_page : Dom :=
  mkDom true false true (mkInfo CoordsDashes EtaDashes low).

Definition example_start : System := newLandingAssistSystem example_page.

(** [n] firings of the descent timer [h], all drawing [0.5] (no jitter). *)
Definition descent_ticks (h n : nat) : list Event :=
  repeat (LandingInterval h 0.5 0.5) n.

(** Pick a target, start landing, let the descent run one step, cancel. *)
Definition cancelled_attempt : list Event :=
  [OverlayClick 500 300; LandBtn; LandingInterval 0 0.5 0.5; CancelBtn].

(** Pick a target, start landing, let the descent run to its last step; the
    99th step, the last one that moves the vehicle, draws a jitter. *)
Definition full_descent : list Event :=
  [OverlayClick 500 300; LandBtn] ++ descent_ticks 0 98 ++
  [LandingInterval 0 0.75 0.25; LandingInterval 0 0.5 0.5].

(** ** The status cell *)

Local Open Scope string_scope.

(** The five string literals stored in [this.flightStatus], as their UTF-8
    bytes. *)
Definition flightStatusText (st : FlightStatus) : String.string :=
  match st with
  | StFlying => "飞行中"
  | StTakingOff => "起飞中"
  | StAutoLanding => "自动降落中"
  | StLanded => "已降落"
  | StManual => "手动模式"
  end.

(** [text.includes(pat)]: [pat] occurs in [text].  (For well-formed strings
    an occurrence among the UTF-16 code units is an occurrence among the
    UTF-8 bytes, and conversely.) *)
Fixpoint includes (text pat : String.string) : bool :=
  String.prefix pat text ||
  match text with
  | String.EmptyString => false
  | String.String _ rest => includes rest pat
  end.

(** The classes [updateStatusDisplay] can add to [#flight-status]. *)
Inductive StatusClass := status_warning | status_active | status_danger.

(** The classes of [#flight-status] besides ['status-value'], as
    [updateStatusDisplay] (lines 256-266) sets them for the status
    [text]. *)
Definition statusClassList (text : String.string) : list StatusClass :=
  if includes text "降落" then [status_warning]
  else if includes text "起飞" then [status_warning]
  else if includes text "已降落" then [status_active]
  else if includes text "手动" then [status_danger]
  else [].

Local Close Scope string_scope.

(** ** Invariants of the event loop *)

(** Every live descent timer has fired fewer than [landingSteps] times. *)
Definition timers_in_range (s : System) : Prop :=
  forall h k, slot_get h (landingIntervals s) = Some k ->
              (0 <= k < landingSteps)%Z.

(** The number of live timers of a timer table. *)
Fixpoint live_timers (l : list (option Z)) : nat :=
  match l with
  | [] => 0
  | Some _ :: t => S (live_timers t)
  | None :: t => live_timers t
  end.

(** What the status text says about the flags: ['自动降落中'] is shown only
    during a descent, ['已降落'] and ['起飞中'] only outside one, ['起飞中']
    only while a take-off timeout is pending, ['手动模式'] only in manual
    mode. *)
Definition status_consistent (s : System) : bool :=
  match flightStatus s with
  | StFlying => true
  | StTakingOff => negb (isLanding s) && (0 <? takeoffTimeouts s)%nat
  | StAutoLanding => isLanding s
  | StLanded => negb (isLanding s)
  | StManual => isManualMode s
  end.

(** The page offers the command of event [e]: its button is not disabled
    (events that are not presses of these buttons are always possible). *)
Definition offered (e : Event) (d : Dom) : bool :=
  match e with
  | LandBtn => negb (land_btn_disabled d)
  | TakeoffBtn => negb (takeoff_btn_disabled d)
  | CancelBtn => negb (cancel_btn_disabled d)
  | _ => true
  end.

(** The [disabled] flags of the three buttons say which commands the guards
    of the script refuse. *)
Definition buttons_show_guards (s : System) : Prop :=
  land_btn_disabled (dom s) = illegal LandBtn s /\
  takeoff_btn_disabled (dom s) = illegal TakeoffBtn s /\
  cancel_btn_disabled (dom s) = illegal CancelBtn s.

(** The draws of an event are values [Math.random()] can return. *)
Definition unit_draws (e : Event) : bool :=
  match e with
  | DriftInterval rx ry ra rs =>
      unit_draw rx && unit_draw ry && unit_draw ra && unit_draw rs
  | LandingInterval _ r1 r2 => unit_draw r1 && unit_draw r2
  | _ => true
  end.

(** Altitude and speed are inside the envelope of the simulation. *)
Definition in_envelope (s : System) : bool :=
  between 0 125 (altitude s) && between 0 6 (speed s).

(** The altitude and the speed a descent sets at its step [n] (lines
    160-161). *)
Definition descent_altitude (n : Z) : float := 120 - of_Z n * 1.2.

Definition descent_speed (n : Z) : float := 5.2 - of_Z n * 0.02.

(** The steps of a descent that set altitude and speed: 1 to 99. *)
Definition descent_steps : list Z := map Z.of_nat (seq 1 99).

(** What is checked of step [n] of a descent: altitude and speed are above
    zero, and above those of the next step. *)
Definition descent_step_ok (n : Z) : bool :=
  (0 <? descent_altitude n) && (0 <? descent_speed n) &&
  (if (n <? 99)%Z
   then (descent_altitude (n + 1) <? descent_altitude n) &&
        (descent_speed (n + 1) <? descent_speed n)
   else true).

(** No press of the cancel button among the events. *)
Definition cancel_free (es : list Event) : bool :=
  forallb (fun e => match e with CancelBtn => false | _ => true end) es.

(** At most one descent timer is live, exactly during a landing, and a
    landing has a target. *)
Definition single_loop (s : System) : Prop :=
  live_timers (landingIntervals s) = (if isLanding s then 1 else 0)%nat /\
  (isLanding s = true -> selectedTarget s <> None).

(** An event that can end or derail the descent on timer [h]: a press of
    the cancel button, or a firing of another descent timer. *)
Definition disturbs (h : nat) (e : Event) : bool :=
  match e with
  | CancelBtn => true
  | LandingInterval h' _ _ => negb (h' =? h)%nat
  | _ => false
  end.

(** The number of firings of descent timer [h] among the events. *)
Fixpoint firings (h : nat) (es : list Event) : nat :=
  match es with
  | [] => 0
  | LandingInterval h' _ _ :: es' =>
      if (h' =? h)%nat then S (firings h es') else firings h es'
  | _ :: es' => firings h es'
  end.

(** ** More example runs *)

(** A busy descent: a take-off is pending when the target is picked and the
    landing started; the descent makes two steps, the manual button is
    pressed between them. *)
Definition busy_descent : list Event :=
  [TakeoffBtn; OverlayClick 500 300; LandBtn;
   LandingInterval 0 0.5 0.5; ManualBtn; LandingInterval 0 0.5 0.5].

(** A second attempt after a cancelled one, whose timer is left to run out:
    its last step clears the target under the new descent. *)
Definition stale_completion : list Event :=
  [OverlayClick 500 300; LandBtn; CancelBtn; LandBtn] ++ descent_ticks 0 100.

(** A descent among other events: every firing of its timer is followed by
    a battery tick, presses of the take-off and the manual button, a click
    on the overlay, a drift tick and the expiry of a take-off timeout. *)
Definition crowded_descent (h n : nat) : list Event :=
  flat_map (fun e => [e; BatteryInterval; TakeoffBtn; ManualBtn;
                      OverlayClick 10 10; DriftInterval 0.5 0.5 0.5 0.5;
                      TakeoffDone])
           (descent_ticks h n).

(** No press of the land button among the events. *)
Definition land_free (es : list Event) : bool :=
  forallb (fun e => match e with LandBtn => false | _ => true end) es.

(** A vehicle that cruises: no descent timer was ever made, the position is
    in the viewport, altitude and speed are in the cruise band. *)
Definition cruising (s : System) : Prop :=
  isLanding s = false /\ landingIntervals s = [] /\
  in_viewport (currentPosition s) = true /\ in_cruise_band s = true.

(** Clicks, a take-off and its timeout, manual mode on and off, with drift
    and battery ticks in between. *)
Definition cruise_events : list Event :=
  [OverlayClick 900 700; TakeoffBtn; DriftInterval 0.99 0 0.5 0.5;
   ManualBtn; DriftInterval 0 0 0 0; BatteryInterval; ManualBtn;
   TakeoffDone; CancelBtn; DriftInterval 0.25 0.75 0.99 0;
   LandingInterval 0 0.5 0.5].

(** ** Order and magnitude of binary64 values

    The comparisons of [SpecFloat] read through a key: the values that are
    not NaN are ordered like their keys, lexicographically. *)

Definition fkey (f : spec_float) : Z * Z * Z :=
  match f with
  | S754_nan => (0, 0, 0)%Z
  | S754_infinity true => (-2, 0, 0)%Z
  | S754_infinity false => (2, 0, 0)%Z
  | S754_zero _ => (0, 0, 0)%Z
  | S754_finite true m e => (-1, - e, Zneg m)%Z
  | S754_finite false m e => (1, e, Zpos m)%Z
  end.

Definition key_lt (k1 k2 : Z * Z * Z) : Prop :=
  let '(a1, b1, c1) := k1 in
  let '(a2, b2, c2) := k2 in
  (a1 < a2 \/ (a1 = a2 /\ (b1 < b2 \/ (b1 = b2 /\ c1 < c2))))%Z.

Definition key_le (k1 k2 : Z * Z * Z) : Prop :=
  let '(a1, b1, c1) := k1 in
  let '(a2, b2, c2) := k2 in
  (a1 < a2 \/ (a1 = a2 /\ (b1 < b2 \/ (b1 = b2 /\ c1 <= c2))))%Z.

Definition SFnan (f : spec_float) : bool :=
  match f with S754_nan => true | _ => false end.

Definition SFfin (f : spec_float) : bool :=
  match f with S754_zero _ | S754_finite _ _ _ => true | _ => false end.

(** Neither NaN nor an infinity. *)
Definition finite (v : float) : bool := SFfin (Prim2SF v).

(** Some shifted-out bit of a rounding record is set. *)
Definition dropped (mrs : shr_record) : bool := shr_r mrs || shr_s mrs.

(** [y] is [x] shifted right [n] times. *)
Definition shifted (n : Z) (x y : shr_record) : Prop :=
  (shr_m y = shr_m x / 2 ^ n)%Z /\
  (dropped y = true -> dropped x = true \/ ~ (2 ^ n | shr_m x)%Z).

(** Magnitude at most [2^K]. *)
Definition SFmag_le (f : spec_float) (K : Z) : Prop :=
  match f with
  | S754_zero _ => True
  | S754_finite _ m e => (Zpos m <= 2 ^ (K - e))%Z
  | _ => False
  end.

(** ** Exact values of binary64 numbers *)





(** ** The position a descent ends at *)







(** * Facts about binary64 values *)

(** Case analysis on two specification floats, down to the comparisons of
    their exponents and mantissas. *)
Ltac sf_cases a b ma ea mb eb :=
  destruct a as [[]|[]| |[] ma ea], b as [[]|[]| |[] mb eb];
  unfold SFltb, SFleb, SFeqb, SFcompare, key_lt, key_le, fkey, SFnan;
  try change (Pos.compare_cont Eq ?p ?q) with (Pos.compare p q).

(** One direction of a key characterisation, by linear arithmetic. *)
Ltac key_cases :=
  split;
  [ intros Hx; try discriminate Hx; repeat split; lia
  | intros (Hx1 & Hx2 & Hx3); try discriminate; try reflexivity; lia ].

(** Goals about keys of arbitrary values. *)
Ltac key_solve :=
  repeat match goal with
         | |- context [fkey ?v] =>
             let k := fresh "k" in
             generalize (fkey v); intros k; destruct k as [[? ?] ?]
         end;
  unfold key_lt, key_le in *; lia.

(** [SFltb] is the strict order of the keys, away from NaN. *)
Lemma SFltb_key (a b : spec_float) :
  SFltb a b = true <->
  SFnan a = false /\ SFnan b = false /\ key_lt (fkey a) (fkey b).
Proof.
  sf_cases a b ma ea mb eb; try key_cases.
  all: destruct (Z.compare_spec ea eb); destruct (Pos.compare_spec ma mb);
    cbn; key_cases.
Qed.

(** [SFleb] is the order of the keys, away from NaN. *)
Lemma SFleb_key (a b : spec_float) :
  SFleb a b = true <->
  SFnan a = false /\ SFnan b = false /\ key_le (fkey a) (fkey b).
Proof.
  sf_cases a b ma ea mb eb; try key_cases.
  all: destruct (Z.compare_spec ea eb); destruct (Pos.compare_spec ma mb);
    cbn; key_cases.
Qed.

(** [is_nan] tests for the NaN of the specification. *)
Lemma is_nan_spec (v : float) : is_nan v = SFnan (Prim2SF v).
Proof.
  unfold is_nan. rewrite eqb_spec.
  destruct (Prim2SF v) as [[]|[]| |[] m e]; cbn; try reflexivity.
  all: rewrite Z.compare_refl; change (Pos.compare_cont Eq m m) with (Pos.compare m m);
    rewrite Pos.compare_refl; reflexivity.
Qed.

Lemma ltb_key (a b : float) :
  (a <? b) = true <->
  is_nan a = false /\ is_nan b = false /\ key_lt (fkey (Prim2SF a)) (fkey (Prim2SF b)).
Proof. rewrite ltb_spec, !is_nan_spec. apply SFltb_key. Qed.

Lemma leb_key (a b : float) :
  (a <=? b) = true <->
  is_nan a = false /\ is_nan b = false /\ key_le (fkey (Prim2SF a)) (fkey (Prim2SF b)).
Proof. rewrite leb_spec, !is_nan_spec. apply SFleb_key. Qed.

Lemma key_le_or_lt k1 k2 : key_le k1 k2 \/ key_lt k2 k1.
Proof. destruct k1 as [[? ?] ?], k2 as [[? ?] ?]; unfold key_lt, key_le; lia. Qed.

Lemma key_lt_not_le k1 k2 : key_lt k1 k2 -> key_le k2 k1 -> False.
Proof. destruct k1 as [[? ?] ?], k2 as [[? ?] ?]; unfold key_lt, key_le; lia. Qed.

Lemma ltb_false_key (a b : float) :
  is_nan a = false -> is_nan b = false ->
  ((a <? b) = false <-> key_le (fkey (Prim2SF b)) (fkey (Prim2SF a))).
Proof.
  intros Ha Hb. split.
  - intros Hf.
    destruct (key_le_or_lt (fkey (Prim2SF b)) (fkey (Prim2SF a))) as [Hle | Hlt];
      [exact Hle |].
    assert (Ht : (a <? b) = true) by (apply ltb_key; auto). congruence.
  - intros Hle. destruct (a <? b) eqn:E; [| reflexivity].
    apply ltb_key in E. destruct E as (_ & _ & Hlt).
    exfalso. exact (key_lt_not_le _ _ Hlt Hle).
Qed.

Lemma leb_nonnan (a b : float) :
  (a <=? b) = true -> is_nan a = false /\ is_nan b = false.
Proof. intros H. apply leb_key in H. tauto. Qed.

Lemma ltb_nonnan (a b : float) :
  (a <? b) = true -> is_nan a = false /\ is_nan b = false.
Proof. intros H. apply ltb_key in H. tauto. Qed.

Lemma leb_trans (a b c : float) :
  (a <=? b) = true -> (b <=? c) = true -> (a <=? c) = true.
Proof.
  rewrite !leb_key. intros (Ha & Hb & H1) (_ & Hc & H2).
  repeat split; auto. revert H1 H2. key_solve.
Qed.

Lemma leb_ltb_trans (a b c : float) :
  (a <=? b) = true -> (b <? c) = true -> (a <? c) = true.
Proof.
  rewrite !leb_key, !ltb_key. intros (Ha & Hb & H1) (_ & Hc & H2).
  repeat split; auto. revert H1 H2. key_solve.
Qed.

Lemma ltb_leb_trans (a b c : float) :
  (a <? b) = true -> (b <=? c) = true -> (a <? c) = true.
Proof.
  rewrite !leb_key, !ltb_key. intros (Ha & Hb & H1) (_ & Hc & H2).
  repeat split; auto. revert H1 H2. key_solve.
Qed.

Lemma ltb_leb (a b : float) : (a <? b) = true -> (a <=? b) = true.
Proof.
  rewrite !leb_key, !ltb_key. intros (Ha & Hb & H1).
  repeat split; auto. revert H1. key_solve.
Qed.

Lemma leb_not_ltb (a b : float) : (a <=? b) = true -> (b <? a) = false.
Proof.
  intros H. destruct (leb_nonnan _ _ H) as (Ha & Hb).
  apply ltb_false_key; auto. apply leb_key in H. tauto.
Qed.

Lemma not_ltb_leb (a b : float) :
  is_nan a = false -> is_nan b = false -> (a <? b) = false -> (b <=? a) = true.
Proof.
  intros Ha Hb H. apply ltb_false_key in H; auto. apply leb_key. auto.
Qed.

Lemma leb_refl (a : float) : is_nan a = false -> (a <=? a) = true.
Proof.
  intros Ha. apply leb_key. repeat split; auto. key_solve.
Qed.

(** ** [Math.max], [Math.min] and clamping *)

(** [Math.min] of two numbers is the one that is not above the other. *)
Lemma Math_min_cases (a b : float) :
  is_nan a = false -> is_nan b = false ->
  (Math_min a b = a /\ (a <=? b) = true) \/ (Math_min a b = b /\ (b <=? a) = true).
Proof.
  intros Ha Hb. unfold Math_min. rewrite Ha, Hb. cbn [orb].
  destruct (a <? b) eqn:Hab.
  - left. split; [reflexivity | apply ltb_leb, Hab].
  - destruct (b <? a) eqn:Hba.
    + right. split; [reflexivity | apply ltb_leb, Hba].
    + destruct (get_sign a).
      * left. split; [reflexivity | apply not_ltb_leb; auto].
      * right. split; [reflexivity | apply not_ltb_leb; auto].
Qed.

(** [Math.max] of two numbers is the one that is not below the other. *)
Lemma Math_max_cases (a b : float) :
  is_nan a = false -> is_nan b = false ->
  (Math_max a b = a /\ (b <=? a) = true) \/ (Math_max a b = b /\ (a <=? b) = true).
Proof.
  intros Ha Hb. unfold Math_max. rewrite Ha, Hb. cbn [orb].
  destruct (a <? b) eqn:Hab.
  - right. split; [reflexivity | apply ltb_leb, Hab].
  - destruct (b <? a) eqn:Hba.
    + left. split; [reflexivity | apply ltb_leb, Hba].
    + destruct (get_sign a).
      * right. split; [reflexivity | apply not_ltb_leb; auto].
      * left. split; [reflexivity | apply not_ltb_leb; auto].
Qed.

(** [Math.max(lo, Math.min(hi, v))] of a number lies in [[lo, hi]]. *)
Lemma clamp_in_range (lo hi v : float) :
  (lo <=? hi) = true -> is_nan v = false ->
  (lo <=? Math_max lo (Math_min hi v)) = true /\
  (Math_max lo (Math_min hi v) <=? hi) = true.
Proof.
  intros Hlh Hv. destruct (leb_nonnan _ _ Hlh) as (Hlo & Hhi).
  destruct (Math_min_cases hi v Hhi Hv) as [(-> & _) | (-> & Hm)].
  - destruct (Math_max_cases lo hi Hlo Hhi) as [(-> & H) | (-> & H)].
    + split; [apply leb_refl; auto | auto].
    + split; [auto | apply leb_refl; auto].
  - destruct (Math_max_cases lo v Hlo Hv) as [(-> & H) | (-> & H)].
    + split; [apply leb_refl; auto | auto].
    + split; auto.
Qed.

(** ... and of NaN it is NaN. *)
Lemma clamp_nan (lo hi v : float) :
  is_nan v = true -> Math_max lo (Math_min hi v) = nan.
Proof.
  intros Hv. unfold Math_min. rewrite Hv, orb_true_r.
  unfold Math_max. change (is_nan nan) with true. rewrite orb_true_r. reflexivity.
Qed.

(** ** Results that are not NaN *)

Lemma shr_1_nonneg mrs : (0 <= shr_m mrs)%Z -> (0 <= shr_m (shr_1 mrs))%Z.
Proof. destruct mrs as [[|[p|p|]|[p|p|]] r s]; cbn; lia. Qed.

Lemma iter_pos_shr_1_nonneg p : forall mrs,
  (0 <= shr_m mrs)%Z -> (0 <= shr_m (iter_pos shr_1 p mrs))%Z.
Proof.
  induction p as [p IH|p IH|]; intros mrs H; cbn.
  - apply IH, IH, shr_1_nonneg, H.
  - apply IH, IH, H.
  - apply shr_1_nonneg, H.
Qed.

Lemma shr_fexp_nonneg m e l :
  (0 <= m)%Z -> (0 <= shr_m (fst (shr_fexp prec emax m e l)))%Z.
Proof.
  intros H. unfold shr_fexp, shr.
  assert (H0 : (0 <= shr_m (shr_record_of_loc m l))%Z)
    by (destruct l as [|[]]; exact H).
  destruct (fexp prec emax (Zdigits2 m + e) - e)%Z; cbn; auto.
  apply iter_pos_shr_1_nonneg, H0.
Qed.

Lemma round_nearest_even_nonneg m l :
  (0 <= m)%Z -> (0 <= round_nearest_even m l)%Z.
Proof. destruct l as [|[]]; cbn; try destruct (Z.even m); lia. Qed.

(** Rounding a non-negative mantissa never gives NaN. *)
Lemma binary_round_aux_nonnan sx mx ex lx :
  (0 <= mx)%Z -> SFnan (binary_round_aux prec emax sx mx ex lx) = false.
Proof.
  intros H. unfold binary_round_aux.
  pose proof (shr_fexp_nonneg mx ex lx H) as H1.
  destruct (shr_fexp prec emax mx ex lx) as [mrs' e']. cbn [fst] in H1.
  pose proof (shr_fexp_nonneg _ e' loc_Exact
                (round_nearest_even_nonneg _ (loc_of_shr_record mrs') H1)) as H2.
  destruct (shr_fexp prec emax _ e' loc_Exact) as [mrs'' e'']. cbn [fst] in H2.
  destruct (shr_m mrs'') as [|p|p]; [reflexivity | | lia].
  destruct (e'' <=? emax - prec)%Z; reflexivity.
Qed.

Lemma binary_normalize_nonnan m e sz :
  SFnan (binary_normalize prec emax m e sz) = false.
Proof.
  destruct m as [|p|p]; cbn; [reflexivity | |];
    unfold binary_round; destruct (shl_align _ _ _) as [mz ez];
    apply binary_round_aux_nonnan; lia.
Qed.

Lemma SFadd_nonnan a b :
  SFfin a = true -> SFnan b = false -> SFnan (SF64add a b) = false.
Proof.
  destruct a as [[]|[]| |sa ma ea], b as [[]|[]| |sb mb eb]; cbn;
    try discriminate; try reflexivity.
  intros _ _. apply binary_normalize_nonnan.
Qed.

Lemma SFsub_nonnan a b :
  SFnan a = false -> SFfin b = true -> SFnan (SF64sub a b) = false.
Proof.
  destruct a as [[]|[]| |sa ma ea], b as [[]|[]| |sb mb eb]; cbn;
    try discriminate; try reflexivity.
  intros _ _. apply binary_normalize_nonnan.
Qed.

Lemma SFmul_nonnan a sb mb eb :
  SFnan a = false -> SFnan (SF64mul a (S754_finite sb mb eb)) = false.
Proof.
  destruct a as [[]|[]| |sa ma ea]; cbn; try discriminate; try reflexivity.
  intros _. apply binary_round_aux_nonnan. lia.
Qed.

(** A finite value plus a number is a number. *)
Lemma add_nonnan (a b : float) :
  finite a = true -> is_nan b = false -> is_nan (a + b) = false.
Proof.
  unfold finite. rewrite !is_nan_spec, add_spec. apply SFadd_nonnan.
Qed.

(** Between two finite values there are only finite values. *)
Lemma in_range_finite (lo hi v : float) :
  finite lo = true -> finite hi = true ->
  (lo <=? v) = true -> (v <=? hi) = true -> finite v = true.
Proof.
  unfold finite. rewrite !leb_key, !is_nan_spec.
  intros Hlo Hhi (_ & Hv & H1) (_ & _ & H2). revert Hlo Hhi Hv H1 H2.
  destruct (Prim2SF lo) as [[]|[]| |[] ? ?], (Prim2SF hi) as [[]|[]| |[] ? ?],
    (Prim2SF v) as [[]|[]| |[] ? ?]; unfold key_le, fkey, SFfin, SFnan;
    intros; try reflexivity; try discriminate; lia.
Qed.

(** ** Rounding does not pass a power of two *)

Local Open Scope Z_scope.

(** [digits2_pos p] is the length of [p] in binary. *)
Lemma digits2_pos_bounds (p : positive) :
  2 ^ (Zpos (digits2_pos p) - 1) <= Zpos p < 2 ^ Zpos (digits2_pos p).
Proof.
  induction p as [p IH|p IH|]; cbn [digits2_pos];
    rewrite ?Pos2Z.inj_succ; [| | cbn; lia].
  - replace (Z.succ (Zpos (digits2_pos p)) - 1) with (Z.succ (Zpos (digits2_pos p) - 1)) by lia.
    rewrite !Z.pow_succ_r by lia. lia.
  - replace (Z.succ (Zpos (digits2_pos p)) - 1) with (Z.succ (Zpos (digits2_pos p) - 1)) by lia.
    rewrite !Z.pow_succ_r by lia. lia.
Qed.

Lemma shr_1_shifted mrs : 0 <= shr_m mrs -> shifted 1 mrs (shr_1 mrs).
Proof.
  intros H. unfold shifted, dropped. change (2 ^ 1) with 2.
  destruct mrs as [[|[p|p|]|p] r s]; cbn in H |- *; try lia.
  - split; [reflexivity | auto].
  - split; [rewrite Pos2Z.inj_xI; apply Z.div_unique with 1; lia |].
    intros _. right. intros [k Hk]. lia.
  - split; [rewrite Pos2Z.inj_xO; apply Z.div_unique with 0; lia | auto].
  - split; [reflexivity |]. intros _. right. intros [k Hk]. lia.
Qed.

Lemma shifted_trans a b x y z :
  0 < a -> 0 < b -> 0 <= shr_m x ->
  shifted a x y -> shifted b y z -> shifted (a + b) x z.
Proof.
  intros Ha Hb Hx (Hm1 & Hd1) (Hm2 & Hd2). split.
  - rewrite Hm2, Hm1, Z.pow_add_r by lia. apply Z.div_div; lia.
  - intros Hz. destruct (Hd2 Hz) as [Hy | Hy].
    + destruct (Hd1 Hy) as [? | Hn]; [left; auto |].
      right. intros [k Hk]. apply Hn. exists (k * 2 ^ b).
      rewrite Hk, Z.pow_add_r by lia. ring.
    + right. intros [k Hk]. apply Hy. exists k.
      rewrite Hm1, Hk, Z.pow_add_r by lia.
      replace (k * (2 ^ a * 2 ^ b)) with (k * 2 ^ b * 2 ^ a) by ring.
      apply Z.div_mul. lia.
Qed.

Lemma shifted_nonneg n x y : 0 <= n -> 0 <= shr_m x -> shifted n x y -> 0 <= shr_m y.
Proof. intros Hn Hx (Hm & _). rewrite Hm. apply Z.div_pos; lia. Qed.

(** [iter_pos shr_1 p] shifts right [p] times: the mantissa is divided by
    [2^p], and a bit is recorded as dropped only if one was. *)
Lemma iter_pos_shr_1_shifted p : forall mrs,
  0 <= shr_m mrs -> shifted (Zpos p) mrs (iter_pos shr_1 p mrs).
Proof.
  induction p as [p IH|p IH|]; intros mrs H; cbn [iter_pos].
  - rewrite Pos2Z.inj_xI.
    replace (2 * Zpos p + 1) with (1 + (Zpos p + Zpos p)) by lia.
    pose proof (shr_1_shifted mrs H) as H1.
    pose proof (shifted_nonneg 1 _ _ ltac:(lia) H H1) as N1.
    pose proof (IH _ N1) as H2.
    pose proof (shifted_nonneg (Zpos p) _ _ ltac:(lia) N1 H2) as N2.
    pose proof (IH _ N2) as H3.
    apply shifted_trans with (shr_1 mrs); try lia; auto.
    apply shifted_trans with (iter_pos shr_1 p (shr_1 mrs)); try lia; auto.
  - rewrite Pos2Z.inj_xO.
    replace (2 * Zpos p) with (Zpos p + Zpos p) by lia.
    pose proof (IH _ H) as H2.
    pose proof (shifted_nonneg (Zpos p) _ _ ltac:(lia) H H2) as N2.
    apply shifted_trans with (iter_pos shr_1 p mrs); try lia; auto.
  - apply shr_1_shifted, H.
Qed.

(** [shr_fexp] on an exact input: the new exponent and the shifted mantissa. *)
Lemma shr_fexp_exact m e :
  0 <= m ->
  let e' := Z.max e (fexp prec emax (Zdigits2 m + e)) in
  snd (shr_fexp prec emax m e loc_Exact) = e' /\
  shr_m (fst (shr_fexp prec emax m e loc_Exact)) = m / 2 ^ (e' - e) /\
  (dropped (fst (shr_fexp prec emax m e loc_Exact)) = true -> ~ (2 ^ (e' - e) | m)).
Proof.
  intros Hm e'. unfold shr_fexp, shr. fold (fexp prec emax (Zdigits2 m + e)).
  cbn [shr_record_of_loc].
  destruct (fexp prec emax (Zdigits2 m + e) - e) as [|p|p] eqn:En; cbn [fst snd].
  - assert (e' = e) by lia. replace (e' - e) with 0 by lia.
    rewrite Z.pow_0_r, Z.div_1_r. cbn. repeat split; auto. discriminate.
  - assert (e' = e + Zpos p) by lia. replace (e' - e) with (Zpos p) by lia.
    destruct (iter_pos_shr_1_shifted p (Build_shr_record m false false) Hm) as (H1 & H2).
    cbn [shr_m] in H1, H2. repeat split; auto.
    intros Hd. destruct (H2 Hd) as [Hx | Hx]; [discriminate Hx | exact Hx].
  - assert (e' = e) by lia. replace (e' - e) with 0 by lia.
    rewrite Z.pow_0_r, Z.div_1_r. cbn. repeat split; auto. discriminate.
Qed.

(** Rounding to nearest adds at most one, and only when bits were dropped. *)
Lemma round_nearest_even_le mrs :
  round_nearest_even (shr_m mrs) (loc_of_shr_record mrs) = shr_m mrs \/
  (dropped mrs = true /\
   round_nearest_even (shr_m mrs) (loc_of_shr_record mrs) = shr_m mrs + 1).
Proof.
  destruct mrs as [m [] []]; cbn; auto; destruct (Z.even m); auto.
Qed.

Lemma pow2_le_inv a b : 0 <= b -> 2 ^ a <= 2 ^ b -> a <= b.
Proof.
  intros Hb H. destruct (Z.le_gt_cases a b) as [|Hgt]; [assumption |].
  assert (2 ^ b < 2 ^ a) by (apply Z.pow_lt_mono_r; lia). lia.
Qed.

(** Rounding an exact value of magnitude at most [2^K] gives at most [2^K]
    (for [K] in the range of the format): the value is not carried past a
    power of two. *)
Lemma binary_round_aux_mag sx mx ex K :
  0 < mx -> mx <= 2 ^ (K - ex) ->
  -1074 <= K <= 971 ->
  SFmag_le (binary_round_aux prec emax sx mx ex loc_Exact) K.
Proof.
  intros Hpos Hle HK. unfold binary_round_aux.
  destruct (shr_fexp_exact mx ex ltac:(lia)) as (He' & Hm' & Hd').
  destruct (shr_fexp prec emax mx ex loc_Exact) as [mrs' e'].
  cbn [fst snd] in He', Hm', Hd'. rewrite <- He' in Hm', Hd'.
  assert (Hex : ex <= K).
  { destruct (Z.le_gt_cases ex K); [assumption |].
    rewrite Z.pow_neg_r in Hle by lia. lia. }
  assert (He'K : e' <= K).
  { rewrite He'. apply Z.max_lub; [assumption |].
    unfold fexp, SpecFloat.emin, prec, emax. apply Z.max_lub; [| lia].
    destruct mx as [|p|p]; try lia. cbn [Zdigits2].
    pose proof (digits2_pos_bounds p) as Hp.
    assert (Zpos (digits2_pos p) - 1 <= K - ex)
      by (apply pow2_le_inv; lia).
    lia. }
  assert (Hee : ex <= e') by lia.
  set (m1 := round_nearest_even (shr_m mrs') (loc_of_shr_record mrs')).
  assert (Hsplit : 2 ^ (K - ex) = 2 ^ (e' - ex) * 2 ^ (K - e')).
  { rewrite <- Z.pow_add_r by lia. f_equal. lia. }
  assert (Hp2 : 0 < 2 ^ (e' - ex)) by (apply Z.pow_pos_nonneg; lia).
  assert (Hm1 : 0 <= m1 <= 2 ^ (K - e')).
  { assert (H0 : 0 <= shr_m mrs') by (rewrite Hm'; apply Z.div_pos; lia).
    assert (Hup : shr_m mrs' <= 2 ^ (K - e')).
    { rewrite Hm'. apply Z.div_le_upper_bound; lia. }
    unfold m1. destruct (round_nearest_even_le mrs') as [-> | (Hdr & ->)]; [lia |].
    split; [lia |].
    assert (mx <> 2 ^ (e' - ex) * 2 ^ (K - e')).
    { intros Heq. apply (Hd' Hdr). exists (2 ^ (K - e')). lia. }
    assert (shr_m mrs' < 2 ^ (K - e'))
      by (rewrite Hm'; apply Z.div_lt_upper_bound; lia).
    lia. }
  clearbody m1.
  destruct (shr_fexp_exact m1 e' ltac:(lia)) as (He'' & Hm'' & _).
  destruct (shr_fexp prec emax m1 e' loc_Exact) as [mrs'' e''].
  cbn [fst snd] in He'', Hm''. rewrite <- He'' in Hm''.
  assert (Hee' : e' <= e'') by lia.
  assert (Hp3 : 0 < 2 ^ (e'' - e')) by (apply Z.pow_pos_nonneg; lia).
  assert (Hnn : 0 <= m1 / 2 ^ (e'' - e')) by (apply Z.div_pos; lia).
  destruct (shr_m mrs'') as [|m|m] eqn:Em; [exact I | | lia].
  assert (Hge : 2 ^ (e'' - e') <= m1).
  { destruct (Z.le_gt_cases (2 ^ (e'' - e')) m1); [assumption |].
    rewrite Z.div_small in Hm'' by lia. lia. }
  assert (He''K : e'' <= K).
  { assert (e'' - e' <= K - e') by (apply pow2_le_inv; lia). lia. }
  replace (e'' <=? emax - prec) with true
    by (symmetry; apply Z.leb_le; unfold prec, emax; lia).
  cbn [SFmag_le]. rewrite Hm''.
  apply Z.div_le_upper_bound; [lia |].
  rewrite <- Z.pow_add_r by lia. replace (e'' - e' + (K - e'')) with (K - e') by lia.
  lia.
Qed.

(** [shl_align] lowers the exponent to [ex'] (if it is lower) and keeps the
    value. *)
Lemma shl_align_spec mx ex ex' :
  snd (shl_align mx ex ex') = Z.min ex ex' /\
  Zpos (fst (shl_align mx ex ex')) = Zpos mx * 2 ^ (ex - Z.min ex ex').
Proof.
  unfold shl_align. destruct (ex' - ex) as [|d|d] eqn:E; cbn [fst snd].
  - replace (Z.min ex ex') with ex by lia. rewrite Z.sub_diag. cbn. lia.
  - replace (Z.min ex ex') with ex by lia. rewrite Z.sub_diag. cbn. lia.
  - replace (Z.min ex ex') with ex' by lia. split; [reflexivity |].
    replace (ex - ex') with (Zpos d) by lia.
    change (Pos.iter xO mx d) with (shift_pos d mx).
    rewrite shift_pos_correct. change (2 ^ Zpos d) with (Z.pow_pos 2 d).
    unfold Zpower_pos. lia.
Qed.

Lemma binary_round_mag sx mx ex K :
  Zpos mx <= 2 ^ (K - ex) -> -1074 <= K <= 971 ->
  SFmag_le (binary_round prec emax sx mx ex) K.
Proof.
  intros Hle HK. unfold binary_round.
  pose proof (shl_align_spec mx ex (fexp prec emax (Zpos (digits2_pos mx) + ex)))
    as (Hs & Hf).
  destruct (shl_align mx ex _) as [mz ez]. cbn [fst snd] in Hs, Hf.
  rewrite <- Hs in Hf.
  assert (Hex : ex <= K).
  { destruct (Z.le_gt_cases ex K); [assumption |].
    rewrite Z.pow_neg_r in Hle by lia. lia. }
  apply binary_round_aux_mag; [lia | | assumption].
  rewrite Hf.
  replace (K - ez) with ((K - ex) + (ex - ez)) by lia.
  rewrite Z.pow_add_r by lia.
  apply Z.mul_le_mono_nonneg_r; [apply Z.pow_nonneg; lia | assumption].
Qed.

Lemma binary_normalize_mag m e sz K :
  Z.abs m <= 2 ^ (K - e) -> -1074 <= K <= 971 ->
  SFmag_le (binary_normalize prec emax m e sz) K.
Proof.
  intros Hle HK. destruct m as [|p|p]; cbn [binary_normalize];
    [exact I | |]; apply binary_round_mag; auto.
Qed.

(** Magnitudes multiply. *)
Lemma SFmul_mag u sc mc ec Ku Kc :
  SFmag_le u Ku -> Zpos mc <= 2 ^ (Kc - ec) ->
  -1074 <= Ku + Kc <= 971 ->
  SFmag_le (SF64mul u (S754_finite sc mc ec)) (Ku + Kc).
Proof.
  intros Hu Hc HK. destruct u as [su|su| |su mu eu]; cbn in Hu |- *;
    try contradiction; [exact I |].
  assert (Heu : eu <= Ku).
  { destruct (Z.le_gt_cases eu Ku); [assumption |].
    rewrite Z.pow_neg_r in Hu by lia. lia. }
  assert (Hec : ec <= Kc).
  { destruct (Z.le_gt_cases ec Kc); [assumption |].
    rewrite Z.pow_neg_r in Hc by lia. lia. }
  apply binary_round_aux_mag; [lia | | assumption].
  rewrite Pos2Z.inj_mul.
  replace (Ku + Kc - (eu + ec)) with ((Ku - eu) + (Kc - ec)) by lia.
  rewrite Z.pow_add_r by lia.
  apply Z.mul_le_mono_nonneg; lia.
Qed.

(** The specification value of a draw in [0, 1), less one half, is at most
    one half in magnitude. *)
Lemma SFsub_half_mag (r : spec_float) :
  valid_binary r = true ->
  SFleb (S754_zero false) r = true ->
  SFltb r (S754_finite false 4503599627370496 (-52)) = true ->
  SFmag_le (SF64sub r (S754_finite false 4503599627370496 (-53))) (-1).
Proof.
  intros Hv H0 H1. apply SFleb_key in H0. apply SFltb_key in H1.
  destruct H0 as (_ & Hn & H0). destruct H1 as (_ & _ & H1).
  destruct r as [[]|[]| |[] m e]; unfold fkey, key_le, key_lt in H0, H1;
    try lia; try discriminate Hn; try (cbn; lia).
  (* the remaining case: a positive finite draw *)
  cbn in Hv. unfold bounded, canonical_mantissa in Hv.
  apply andb_true_iff in Hv. destruct Hv as (Hc & _).
  apply Z.eqb_eq in Hc. unfold fexp, SpecFloat.emin, emax, prec in Hc.
  pose proof (digits2_pos_bounds m) as Hd.
  assert (Hdig : Zpos (digits2_pos m) <= 53) by lia.
  assert (He : e <= -53).
  { destruct (Z.le_gt_cases e (-53)); [assumption |].
    assert (e = -52) by lia. subst e.
    assert (Zpos m < 4503599627370496) by lia.
    assert (Hd53 : Zpos (digits2_pos m) = 53) by lia.
    rewrite Hd53 in Hd. change (2 ^ (53 - 1)) with 4503599627370496 in Hd. lia. }
  assert (Hm : Zpos m < 2 ^ (- e)).
  { apply Z.lt_le_trans with (2 ^ 53).
    - apply Z.lt_le_trans with (2 ^ Zpos (digits2_pos m)); [lia |].
      apply Z.pow_le_mono_r; lia.
    - apply Z.pow_le_mono_r; lia. }
  unfold SF64sub, SFsub.
  replace (Z.min e (-53)) with e by lia.
  destruct (shl_align_spec m e e) as (_ & Ha).
  destruct (shl_align_spec 4503599627370496 (-53) e) as (_ & Hb).
  replace (Z.min e e) with e in Ha by lia.
  replace (Z.min (-53) e) with e in Hb by lia.
  rewrite Z.sub_diag, Z.pow_0_r, Z.mul_1_r in Ha.
  cbn [cond_Zopp]. rewrite Ha, Hb.
  apply binary_normalize_mag; [| lia].
  change 4503599627370496 with (2 ^ 52).
  rewrite <- Z.pow_add_r by lia.
  replace (52 + (-53 - e)) with (-1 - e) by lia.
  assert (2 ^ (- e) = 2 * 2 ^ (-1 - e)).
  { rewrite <- Z.pow_succ_r by lia. f_equal. lia. }
  assert (0 < 2 ^ (-1 - e)) by (apply Z.pow_pos_nonneg; lia).
  lia.
Qed.

(** A valid value of magnitude at most [2^K] lies between [-2^K] and [2^K]. *)
Lemma SFmag_le_bounds (v : spec_float) (K : Z) :
  valid_binary v = true -> -1022 <= K ->
  SFmag_le v K ->
  SFleb (S754_finite true 4503599627370496 (K - 52)) v = true /\
  SFleb v (S754_finite false 4503599627370496 (K - 52)) = true.
Proof.
  intros Hv HK Hm. rewrite !SFleb_key.
  destruct v as [s|s| |s m e]; cbn in Hm; try contradiction.
  - cbn. repeat split; auto; lia.
  - cbn in Hv. unfold bounded, canonical_mantissa in Hv.
    apply andb_true_iff in Hv. destruct Hv as (Hc & _).
    apply Z.eqb_eq in Hc. unfold fexp, SpecFloat.emin, emax, prec in Hc.
    pose proof (digits2_pos_bounds m) as Hd.
    assert (He : e < K - 52 \/ (e = K - 52 /\ Zpos m <= 4503599627370496)).
    { destruct (Z.lt_trichotomy e (K - 52)) as [|[|Hgt]]; [left; assumption | |].
      - right. split; [assumption |]. subst e.
        replace (K - (K - 52)) with 52 in Hm by lia. exact Hm.
      - exfalso.
        assert (Hlt : Zpos m < 2 ^ 52).
        { apply Z.le_lt_trans with (2 ^ (K - e)); [assumption |].
          destruct (Z.le_gt_cases 0 (K - e)).
          - apply Z.pow_lt_mono_r; lia.
          - rewrite Z.pow_neg_r by lia. lia. }
        assert (Zpos (digits2_pos m) - 1 < 52).
        { destruct (Z.le_gt_cases 52 (Zpos (digits2_pos m) - 1)); [| lia].
          assert (2 ^ 52 <= 2 ^ (Zpos (digits2_pos m) - 1))
            by (apply Z.pow_le_mono_r; lia).
          lia. }
        lia. }
    destruct s; cbn; repeat split; auto; lia.
Qed.

(** ** Division by one *)




Local Close Scope Z_scope.


(** ** Draws of [Math.random()] *)

Lemma unit_draw_nonnan r : unit_draw r = true -> is_nan r = false.
Proof.
  unfold unit_draw. intros H. apply andb_true_iff in H. destruct H as (H & _).
  apply leb_nonnan in H. tauto.
Qed.

Lemma centred_draw_mag (r : float) :
  unit_draw r = true -> SFmag_le (Prim2SF (r - 0.5)) (-1).
Proof.
  unfold unit_draw. intros H. apply andb_true_iff in H. destruct H as (H0 & H1).
  rewrite leb_spec in H0. rewrite ltb_spec in H1. rewrite sub_spec.
  apply SFsub_half_mag; [apply Prim2SF_valid | exact H0 | exact H1].
Qed.

Lemma scaled_draw_mag (r c : float) (sc : bool) (mc : positive) (ec Kc : Z) :
  unit_draw r = true ->
  Prim2SF c = S754_finite sc mc ec ->
  (Zpos mc <= 2 ^ (Kc - ec))%Z -> (-1074 <= -1 + Kc <= 971)%Z ->
  SFmag_le (Prim2SF ((r - 0.5) * c)) (-1 + Kc).
Proof.
  intros Hr Hc Hm HK. rewrite mul_spec, Hc.
  apply SFmul_mag; auto. apply centred_draw_mag, Hr.
Qed.

Lemma mag_le_between (v lo hi : float) (K : Z) :
  Prim2SF lo = S754_finite true 4503599627370496 (K - 52) ->
  Prim2SF hi = S754_finite false 4503599627370496 (K - 52) ->
  (-1022 <= K)%Z ->
  SFmag_le (Prim2SF v) K -> between lo hi v = true.
Proof.
  intros Hlo Hhi HK Hm. unfold between. rewrite !leb_spec, Hlo, Hhi.
  destruct (SFmag_le_bounds (Prim2SF v) K (Prim2SF_valid v) HK Hm) as (-> & ->).
  reflexivity.
Qed.

(** The drift of one axis, [(Math.random() - 0.5) * 0.5], is within a
    quarter unit. *)
Lemma drift_offset_bound (r : float) :
  unit_draw r = true -> between (-0.25) 0.25 ((r - 0.5) * 0.5) = true.
Proof.
  intros Hr. apply mag_le_between with (K := (-2)%Z); try reflexivity; try lia.
  apply (scaled_draw_mag r 0.5 false 4503599627370496 (-53) (-1) Hr);
    [reflexivity | cbn; lia | lia].
Qed.


Lemma between_trans (lo hi lo' hi' v : float) :
  (lo' <=? lo) = true -> (hi <=? hi') = true ->
  between lo hi v = true -> between lo' hi' v = true.
Proof.
  unfold between. intros H1 H2 H. apply andb_true_iff in H. destruct H as (Ha & Hb).
  apply andb_true_iff. split; eapply leb_trans; eauto.
Qed.

Lemma between_nonnan lo hi v : between lo hi v = true -> is_nan v = false.
Proof.
  unfold between. intros H. apply andb_true_iff in H. destruct H as (Ha & _).
  apply leb_nonnan in Ha. tauto.
Qed.

Lemma between_finite lo hi v :
  finite lo = true -> finite hi = true -> between lo hi v = true -> finite v = true.
Proof.
  unfold between. intros Hl Hh H. apply andb_true_iff in H. destruct H as (Ha & Hb).
  exact (in_range_finite lo hi v Hl Hh Ha Hb).
Qed.

Lemma clamp_between (lo hi v : float) :
  (lo <=? hi) = true -> is_nan v = false ->
  between lo hi (Math_max lo (Math_min hi v)) = true.
Proof.
  intros H Hv. unfold between.
  destruct (clamp_in_range lo hi v H Hv) as (-> & ->). reflexivity.
Qed.

(** A draw less one half, times a finite non-zero constant, is a number. *)
Lemma scaled_draw_nonnan (r c : float) (sc : bool) (mc : positive) (ec : Z) :
  unit_draw r = true -> Prim2SF c = S754_finite sc mc ec ->
  is_nan ((r - 0.5) * c) = false.
Proof.
  intros Hr Hc. apply unit_draw_nonnan in Hr.
  rewrite is_nan_spec in *. rewrite mul_spec, sub_spec, Hc.
  apply SFmul_nonnan, SFsub_nonnan; [exact Hr | reflexivity].
Qed.

(** One axis of a drift tick: the new coordinate is inside the bounds. *)
Lemma drift_axis (lo hi v r c : float) (sc : bool) (mc : positive) (ec : Z) :
  (lo <=? hi) = true -> finite v = true -> unit_draw r = true ->
  Prim2SF c = S754_finite sc mc ec ->
  between lo hi (Math_max lo (Math_min hi (v + (r - 0.5) * c))) = true.
Proof.
  intros Hlh Hv Hr Hc. apply clamp_between; [exact Hlh |].
  apply add_nonnan; [exact Hv |]. exact (scaled_draw_nonnan r c sc mc ec Hr Hc).
Qed.

(** * The controller *)

(** ** Runs and timer slots *)

(** Running a sequence of events in two parts. *)
Lemma run_app (a b : list Event) (s : System) :
  run (a ++ b) s = run b (run a s).
Proof. unfold run. apply fold_left_app. Qed.

Lemma slot_set_length (h : nat) (v : option Z) (l : list (option Z)) :
  length (slot_set h v l) = length l.
Proof.
  revert h. induction l as [|a l IH]; intros [|h]; cbn; auto.
Qed.

Lemma slot_get_set (h : nat) (v : option Z) (l : list (option Z)) :
  (h < length l)%nat -> slot_get h (slot_set h v l) = v.
Proof.
  unfold slot_get. revert h.
  induction l as [|a l IH]; intros [|h] Hlt; cbn in *; try lia.
  - destruct v; reflexivity.
  - apply IH. lia.
Qed.

Lemma slot_get_fresh (l : list (option Z)) (v : Z) :
  slot_get (length l) (l ++ [Some v]) = Some v.
Proof.
  unfold slot_get. rewrite nth_error_app2 by lia.
  rewrite Nat.sub_diag. reflexivity.
Qed.

(** ** Commands in illegal states (C5) *)

(** C5: a command issued where it is illegal -- [startLanding()] without a
    target or while landing, [takeoff()] while landing, [cancelLanding()]
    while not landing -- returns normally and leaves the whole state as it
    was. *)
Theorem illegal_command_is_noop (e : Event) (s : System) :
  illegal e s = true -> handle e s = (Returned, s).
Proof.
  destruct e; simpl; try discriminate.
  - unfold takeoff. intros ->. reflexivity.
  - unfold startLanding. destruct (selectedTarget s); [intros -> |]; reflexivity.
  - unfold cancelLanding. destruct (isLanding s); [discriminate | reflexivity].
Qed.

Lemma illegal_command_is_noop_witness :
  illegal LandBtn example_start = true /\
  handle LandBtn example_start = (Returned, example_start).
Proof.
  split; [reflexivity | apply illegal_command_is_noop; reflexivity].
Defined.

(** ** Cancelling keeps the target (C10) *)

(** C10: [cancelLanding()] during a landing leaves [selectedTarget] as it
    was; the land button is enabled afterwards exactly when a target is
    set; with a target, [startLanding()] right after the cancel starts a
    new descent for the same target, and without one it does nothing. *)
Theorem cancelLanding_keeps_target (s : System) :
  isLanding s = true ->
  selectedTarget (cancelLanding s) = selectedTarget s /\
  (land_btn_disabled (dom (cancelLanding s)) = false <->
   selectedTarget s <> None) /\
  (forall t, selectedTarget s = Some t ->
     let s' := startLanding (cancelLanding s) in
     isLanding s' = true /\ selectedTarget s' = Some t /\
     flightStatus s' = StAutoLanding /\
     landingIntervals s' = landingIntervals s ++ [Some 0%Z]) /\
  (selectedTarget s = None ->
     startLanding (cancelLanding s) = cancelLanding s).
Proof.
  intros HL. unfold cancelLanding. rewrite HL. cbn.
  split; [reflexivity |]. split.
  - destruct (selectedTarget s); cbn; split; congruence.
  - split.
    + intros t Ht. unfold startLanding. cbn. rewrite Ht. cbn. auto.
    + intros Hn. unfold startLanding. cbn. rewrite Hn. reflexivity.
Qed.

Lemma cancelLanding_keeps_target_witness :
  let s := run [OverlayClick 500 300; LandBtn; LandingInterval 0 0.5 0.5]
               example_start in
  isLanding s = true /\
  selectedTarget (cancelLanding s) = selectedTarget s /\
  isLanding (startLanding (cancelLanding s)) = true.
Proof.
  cbv zeta.
  set (s := run _ _).
  assert (HL : isLanding s = true) by reflexivity.
  destruct (cancelLanding_keeps_target s HL) as (Ht & _ & Hs & _).
  split; [exact HL |]. split; [exact Ht |].
  exact (proj1 (Hs (mkPoint 500 300) eq_refl)).
Defined.

(** ** Target selection (C6) *)

(** C6, as stated, fails: a point far outside the viewport is recorded as
    the landing target by a click in the initial state. *)
Lemma selectLandingTarget_accepts_out_of_bounds :
  in_viewport (mkPoint 5000 (-40)) = false /\
  selectedTarget example_start = None /\
  selectedTarget (step (OverlayClick 5000 (-40)) example_start)
    = Some (mkPoint 5000 (-40)).
Proof. repeat split; reflexivity. Qed.

(** C6, amended: [selectLandingTarget(x, y)] records [(x, y)] whatever the
    coordinates are; a click on the overlay reaches it exactly when neither
    the manual flag nor [isLanding] is set, and otherwise changes nothing. *)
Theorem selectLandingTarget_records_any_point (cx cy : float) (s : System) :
  selectedTarget (selectLandingTarget cx cy s) = Some (mkPoint cx cy) /\
  overlayClick cx cy s =
    (if isManualMode s || isLanding s then s else selectLandingTarget cx cy s).
Proof. split; reflexivity. Qed.

(** ** Manual mode (C7) *)

(** C7, as stated, fails: after a completed landing the toggle takes the
    controller out of [Landed] -- the battery, which a landed vehicle keeps,
    drains again; toggled back, the vehicle counts as flying and the next
    drift tick lifts the altitude from 0 to 115. *)
Lemma toggleManualMode_changes_mode :
  let s := run full_descent example_start in
  let s1 := toggleManualMode s in
  let s2 := toggleManualMode s1 in
  mode s = Landed /\ mode s1 = Flying /\
  battery (batteryTick s) = battery s /\
  (battery (batteryTick s1) <? battery s1) = true /\
  mode s2 = Flying /\ controlMode s2 = controlMode s /\
  altitude s = 0 /\ altitude (driftTick 0.5 0.5 0.5 0.5 s2) = 115.
Proof. vm_compute. repeat split; reflexivity. Qed.

(** A descent step reads neither the status text nor the manual flag. *)
Lemma landingIntervalTick_ignores_status (h : nat) (r1 r2 : float)
  (s1 s2 : System) :
  descent_view s1 = descent_view s2 ->
  fst (landingIntervalTick h r1 r2 s1) = fst (landingIntervalTick h r1 r2 s2) /\
  descent_view (snd (landingIntervalTick h r1 r2 s1))
    = descent_view (snd (landingIntervalTick h r1 r2 s2)).
Proof.
  destruct s1, s2. unfold descent_view. cbn. intros H. inversion H; subst.
  unfold landingIntervalTick. cbn.
  destruct (slot_get h landingIntervals1) as [step0|]; cbn; [| auto].
  destruct (landingSteps <=? step0 + 1)%Z; cbn; [auto |].
  destruct selectedTarget1 as [t|]; cbn; [| auto].
  destruct (Z.rem (step0 + 1) 10 =? 0)%Z; cbn; auto.
Qed.

(** C7, amended: [toggleManualMode()] flips [isManualMode] and overwrites
    the status text (with ['手动模式'] on entering manual mode), and changes
    nothing else -- in particular not [isLanding]; while the flag is set,
    overlay clicks and drift ticks do nothing; a descent timer does the same
    to everything but the status text whether or not the toggle came
    first. *)
Theorem toggleManualMode_frame (s : System) :
  let s' := toggleManualMode s in
  isManualMode s' = negb (isManualMode s) /\
  descent_view s' = descent_view s /\
  (isManualMode s = false -> flightStatus s' = StManual) /\
  (mode s = Landing <-> mode s' = Landing) /\
  (isManualMode s = true ->
     forall a b c d, overlayClick a b s = s /\ driftTick a b c d s = s) /\
  (forall h r1 r2,
     fst (landingIntervalTick h r1 r2 s') = fst (landingIntervalTick h r1 r2 s) /\
     descent_view (snd (landingIntervalTick h r1 r2 s'))
       = descent_view (snd (landingIntervalTick h r1 r2 s))).
Proof.
  cbv zeta.
  assert (Hv : descent_view (toggleManualMode s) = descent_view s).
  { unfold toggleManualMode. cbn. destruct (isManualMode s); reflexivity. }
  split; [| split; [exact Hv | split; [| split; [| split]]]].
  - unfold toggleManualMode. cbn. destruct (isManualMode s); reflexivity.
  - intros Hm. unfold toggleManualMode. cbn. rewrite Hm. reflexivity.
  - unfold mode, toggleManualMode. cbn.
    destruct (isManualMode s); cbn; destruct (isLanding s); cbn;
      try tauto; destruct (flightStatus s); split; discriminate.
  - intros Hm a b c d. split.
    + unfold overlayClick. rewrite Hm. reflexivity.
    + unfold driftTick. rewrite Hm, orb_true_r. reflexivity.
  - intros h r1 r2. apply landingIntervalTick_ignores_status, Hv.
Qed.

(** ** Cancelling a descent (C1) *)

(** C1 on the code: [cancelLanding()] never clears the interval.  After the
    cancel the controller reads [Flying] while the timer of the cancelled
    attempt is still live; its next firing lowers altitude and speed and
    moves the vehicle, its 100th step lands the vehicle although no landing
    is in progress, and a second [startLanding()] runs beside it: when the
    stale timer completes first it clears the target, and the first step of
    the new descent then ends in a [TypeError]. *)
Theorem cancelled_descent_keeps_running :
  (forall s, landingIntervals (cancelLanding s) = landingIntervals s) /\
  let s := run cancelled_attempt example_start in
  let s1 := step (LandingInterval 0 0.5 0.5) s in
  let s2 := run (LandBtn :: descent_ticks 0 99) s in
  mode s = Flying /\ landingIntervals s = [Some 1%Z] /\
  mode s1 = Flying /\
  (altitude s1 <? altitude s) = true /\
  (speed s1 <? speed s) = true /\
  (x (currentPosition s) <? x (currentPosition s1)) = true /\
  mode (run (descent_ticks 0 98) s) = Flying /\
  mode (run (descent_ticks 0 99) s) = Landed /\
  landingIntervals (step LandBtn s) = [Some 1%Z; Some 0%Z] /\
  mode s2 = Landed /\ landingIntervals s2 = [None; Some 0%Z] /\
  fst (handle (LandingInterval 1 0.5 0.5) s2) = ThrewTypeError.
Proof.
  split.
  - intros s. unfold cancelLanding. destruct (isLanding s); reflexivity.
  - vm_compute. repeat split; reflexivity.
Qed.

(** ** ETA (C2) *)

(** C2 on the code: the guard of the ETA cell is [eta > 0].  With distance
    100 and speed 10 the cell shows 10; with speed 0 the quotient is
    [Infinity], which passes the guard, and the cell shows it instead of
    the dashes.  The page reaches that state when a descent completes
    ([completeLanding] refreshes the panel before it clears the target) and
    when a target is picked after landing. *)
Theorem eta_of_zero_speed_is_not_dashes :
  let with_speed v :=
    set_speed v (set_selectedTarget (Some (mkPoint 500 300)) example_start) in
  info_eta (landingInfo (with_speed 10)) = EtaSeconds 10 /\
  info_eta (landingInfo (with_speed 0)) = EtaSeconds infinity /\
  info_eta (info_panel (dom (run full_descent example_start)))
    = EtaSeconds infinity /\
  info_eta (info_panel (dom
    (run (full_descent ++ [OverlayClick 100 100]) example_start)))
    = EtaSeconds infinity.
Proof. vm_compute. repeat split; reflexivity. Qed.

(** ** The steps of a descent *)

(** [startLanding()] with a target, outside a landing, starts a descent on a
    fresh timer. *)
Lemma startLanding_descending (s : System) (t : Point) :
  selectedTarget s = Some t -> isLanding s = false ->
  descending t (length (landingIntervals s)) 0 (startLanding s).
Proof.
  intros Ht Hl. unfold startLanding. rewrite Ht, Hl. unfold descending. cbn.
  repeat split; auto.
  - apply slot_get_fresh.
  - rewrite length_app. cbn. lia.
Qed.

(** A step before the last: the descent goes on, one step further. *)
Lemma landingIntervalTick_descending {t h k} r1 r2 {st} :
  descending t h k st -> (k < 99)%nat ->
  descending t h (S k) (step (LandingInterval h r1 r2) st).
Proof.
  intros (Hl & Ht & Hs & Hh) Hk.
  unfold step, handle, landingIntervalTick. rewrite Hs.
  replace (landingSteps <=? Z.of_nat k + 1)%Z with false
    by (symmetry; apply Z.leb_gt; unfold landingSteps; lia).
  cbn. rewrite Ht.
  assert (Hk1 : (Z.of_nat k + 1)%Z = Z.of_nat (S k)) by lia.
  destruct (Z.rem (Z.of_nat k + 1) 10 =? 0)%Z; unfold descending; cbn;
    (repeat split; auto;
     [ rewrite slot_get_set by exact Hh; f_equal; exact Hk1
     | rewrite slot_set_length; exact Hh ]).
Qed.

(** ... and so do any number of steps up to the 99th. *)
Lemma run_descending {t h} rs : forall k st,
  descending t h k st -> (k + length rs <= 99)%nat ->
  descending t h (k + length rs) (run (descent_events h rs) st).
Proof.
  induction rs as [|r rs IH]; intros k st Hd Hle; cbn in *.
  - rewrite Nat.add_0_r. exact Hd.
  - replace (k + S (length rs))%nat with (S k + length rs)%nat by lia.
    apply IH; [| lia].
    apply (landingIntervalTick_descending (fst r) (snd r) Hd). lia.
Qed.


(** The 100th step: [completeLanding] and [clearInterval]. *)
Lemma landingIntervalTick_completes {t h} r1 r2 {st} :
  descending t h 99 st ->
  let st' := step (LandingInterval h r1 r2) st in
  altitude st' = 0 /\ speed st' = 0 /\ isLanding st' = false /\
  flightStatus st' = StLanded /\ selectedTarget st' = None /\
  slot_get h (landingIntervals st') = None /\
  currentPosition st' = currentPosition st.
Proof.
  intros (Hl & Ht & Hs & Hh).
  unfold step, handle, landingIntervalTick. rewrite Hs.
  cbn. repeat split; auto.
  rewrite slot_get_set; [reflexivity |].
  rewrite slot_set_length. exact Hh.
Qed.

(** ** Idle drift (C8) *)

(** A drift tick changes neither flag nor the status text. *)
Lemma driftTick_flags rx ry ra rs s :
  let s' := driftTick rx ry ra rs s in
  isLanding s' = isLanding s /\ isManualMode s' = isManualMode s /\
  flightStatus s' = flightStatus s.
Proof.
  cbv zeta. unfold driftTick.
  destruct (isLanding s || isManualMode s); [repeat split; reflexivity |].
  cbn. destruct (flightStatus s) eqn:E; cbn; rewrite ?E; repeat split; reflexivity.
Qed.

(** A drift tick outside landing and manual mode, from a finite position. *)
Lemma driftTick_idle rx ry ra rs s :
  isLanding s = false -> isManualMode s = false ->
  finite (x (currentPosition s)) = true ->
  finite (y (currentPosition s)) = true ->
  drift_draws (DriftInterval rx ry ra rs) = true ->
  let s' := driftTick rx ry ra rs s in
  let p := currentPosition s in
  currentPosition s' =
    mkPoint (Math_max 10 (Math_min 790 (x p + (rx - 0.5) * 0.5)))
            (Math_max 10 (Math_min 590 (y p + (ry - 0.5) * 0.5))) /\
  in_viewport (currentPosition s') = true /\
  (flightStatus s = StFlying ->
   finite (altitude s) = true -> finite (speed s) = true ->
   in_cruise_band s' = true) /\
  (flightStatus s <> StFlying ->
   altitude s' = altitude s /\ speed s' = speed s).
Proof.
  intros Hl Hm Hx Hy Hd. cbn [drift_draws] in Hd.
  apply andb_true_iff in Hd. destruct Hd as (Hd & Hrs).
  apply andb_true_iff in Hd. destruct Hd as (Hd & Hra).
  apply andb_true_iff in Hd. destruct Hd as (Hrx & Hry).
  unfold driftTick. rewrite Hl, Hm. cbn [orb].
  assert (Hpos : in_viewport
            (mkPoint (Math_max 10 (Math_min 790 (x (currentPosition s) + (rx - 0.5) * 0.5)))
                     (Math_max 10 (Math_min 590 (y (currentPosition s) + (ry - 0.5) * 0.5))))
            = true).
  { unfold in_viewport. cbn [x y]. apply andb_true_iff. split.
    - apply (drift_axis 10 790 _ rx 0.5 false 4503599627370496 (-53));
        [reflexivity | assumption | assumption | reflexivity].
    - apply (drift_axis 10 590 _ ry 0.5 false 4503599627370496 (-53));
        [reflexivity | assumption | assumption | reflexivity]. }
  cbn. destruct (flightStatus s) eqn:Hf; cbn; repeat split; auto; try congruence.
  intros _ Ha Hv. unfold in_cruise_band. cbn. apply andb_true_iff. split.
  - apply (drift_axis 115 125 _ ra 0.2 false 7205759403792794 (-55));
      [reflexivity | assumption | assumption | reflexivity].
  - apply (drift_axis 4.5 6.0 _ rs 0.1 false 7205759403792794 (-56));
      [reflexivity | assumption | assumption | reflexivity].
Qed.

(** What a run of drift ticks keeps, for a vehicle that started them in
    status [st0] with altitude [a0] and speed [v0]. *)
Lemma driftTick_keeps_idle (st0 : FlightStatus) (a0 v0 : float) e s :
  drift_draws e = true ->
  (isLanding s = false /\ isManualMode s = false /\ flightStatus s = st0 /\
   in_viewport (currentPosition s) = true /\
   (st0 = StFlying -> in_cruise_band s = true) /\
   (st0 <> StFlying -> altitude s = a0 /\ speed s = v0)) ->
  let s' := step e s in
  isLanding s' = false /\ isManualMode s' = false /\ flightStatus s' = st0 /\
  in_viewport (currentPosition s') = true /\
  (st0 = StFlying -> in_cruise_band s' = true) /\
  (st0 <> StFlying -> altitude s' = a0 /\ speed s' = v0).
Proof.
  intros He (Hl & Hm & Hf & Hp & Hc & Hn).
  destruct e as [ | | | | | |rx ry ra rs | | | ]; try discriminate He.
  unfold step, handle. cbn [snd].
  destruct (driftTick_flags rx ry ra rs s) as (Fl & Fm & Ff).
  unfold in_viewport in Hp. apply andb_true_iff in Hp. destruct Hp as (Hx & Hy).
  destruct (driftTick_idle rx ry ra rs s Hl Hm
              (between_finite 10 790 _ eq_refl eq_refl Hx)
              (between_finite 10 590 _ eq_refl eq_refl Hy) He)
    as (_ & Hp' & Hc' & Hn').
  rewrite Fl, Fm, Ff.
  split; [exact Hl |]. split; [exact Hm |]. split; [exact Hf |].
  split; [exact Hp' |]. split.
  - intros E. specialize (Hc E).
    unfold in_cruise_band in Hc. apply andb_true_iff in Hc.
    destruct Hc as (Ha & Hv).
    apply Hc'; [rewrite Hf; exact E | |].
    + exact (between_finite 115 125 _ eq_refl eq_refl Ha).
    + exact (between_finite 4.5 6.0 _ eq_refl eq_refl Hv).
  - intros E. destruct (Hn E) as (Ha & Hv).
    destruct (Hn' ltac:(rewrite Hf; exact E)) as (-> & ->). auto.
Qed.

Lemma run_keeps_idle (st0 : FlightStatus) (a0 v0 : float) es : forall s,
  forallb drift_draws es = true ->
  (isLanding s = false /\ isManualMode s = false /\ flightStatus s = st0 /\
   in_viewport (currentPosition s) = true /\
   (st0 = StFlying -> in_cruise_band s = true) /\
   (st0 <> StFlying -> altitude s = a0 /\ speed s = v0)) ->
  in_viewport (currentPosition (run es s)) = true /\
  (st0 = StFlying -> in_cruise_band (run es s) = true) /\
  (st0 <> StFlying -> altitude (run es s) = a0 /\ speed (run es s) = v0).
Proof.
  induction es as [|e es IH]; intros s Hes Hs; cbn [run fold_left].
  - tauto.
  - cbn in Hes. apply andb_true_iff in Hes. destruct Hes as (He & Hes).
    apply (IH (step e s) Hes).
    exact (driftTick_keeps_idle st0 a0 v0 e s He Hs).
Qed.

(** C8: while no landing is in progress and the control mode is Auto, a
    drift tick adds to each position axis an offset of at most 0.5 (a
    quarter, in fact) and clamps the result to [10,790]x[10,590]; after any
    number of such ticks the position is inside these bounds; in the status
    ['飞行中'] altitude and speed are perturbed and clamped to [115,125] and
    [4.5,6.0], and in every other status the ticks leave them as they
    were. *)
Theorem idle_drift_is_bounded (s : System) (rx ry ra rs : float)
  (es : list Event) :
  isLanding s = false -> isManualMode s = false ->
  finite (x (currentPosition s)) = true ->
  finite (y (currentPosition s)) = true ->
  finite (altitude s) = true -> finite (speed s) = true ->
  forallb drift_draws (DriftInterval rx ry ra rs :: es) = true ->
  let p := currentPosition s in
  let s1 := step (DriftInterval rx ry ra rs) s in
  let sn := run es s1 in
  between (-0.5) 0.5 ((rx - 0.5) * 0.5) = true /\
  between (-0.5) 0.5 ((ry - 0.5) * 0.5) = true /\
  currentPosition s1 =
    mkPoint (Math_max 10 (Math_min 790 (x p + (rx - 0.5) * 0.5)))
            (Math_max 10 (Math_min 590 (y p + (ry - 0.5) * 0.5))) /\
  in_viewport (currentPosition s1) = true /\
  in_viewport (currentPosition sn) = true /\
  (flightStatus s = StFlying ->
   in_cruise_band s1 = true /\ in_cruise_band sn = true) /\
  (flightStatus s <> StFlying ->
   altitude sn = altitude s /\ speed sn = speed s).
Proof.
  intros Hl Hm Hx Hy Ha Hv Hes p s1 sn.
  cbn [forallb] in Hes. apply andb_true_iff in Hes. destruct Hes as (He & Hes).
  pose proof He as Hd. cbn [drift_draws] in Hd.
  apply andb_true_iff in Hd. destruct Hd as (Hd & _).
  apply andb_true_iff in Hd. destruct Hd as (Hd & _).
  apply andb_true_iff in Hd. destruct Hd as (Hrx & Hry).
  destruct (driftTick_idle rx ry ra rs s Hl Hm Hx Hy He) as (Hp1 & Hv1 & Hc1 & Hn1).
  destruct (driftTick_flags rx ry ra rs s) as (Fl & Fm & Ff).
  assert (Hs1 : isLanding s1 = false /\ isManualMode s1 = false /\
                flightStatus s1 = flightStatus s /\
                in_viewport (currentPosition s1) = true /\
                (flightStatus s = StFlying -> in_cruise_band s1 = true) /\
                (flightStatus s <> StFlying ->
                 altitude s1 = altitude s /\ speed s1 = speed s)).
  { unfold s1, step, handle. cbn [snd]. rewrite Fl, Fm, Ff.
    repeat (split; [assumption |]). tauto. }
  destruct (run_keeps_idle (flightStatus s) (altitude s) (speed s) es s1 Hes Hs1)
    as (Hvn & Hcn & Hnn).
  split; [| split].
  - apply (between_trans (-0.25) 0.25); [reflexivity | reflexivity |].
    apply drift_offset_bound, Hrx.
  - apply (between_trans (-0.25) 0.25); [reflexivity | reflexivity |].
    apply drift_offset_bound, Hry.
  - split; [exact Hp1 |]. split; [exact Hv1 |]. split; [exact Hvn |].
    split; [| exact Hnn]. intros E. split; [| exact (Hcn E)].
    exact (proj1 (proj2 (proj2 (proj2 (proj2 Hs1)))) E).
Qed.

Lemma idle_drift_is_bounded_witness :
  let es := [DriftInterval 0 0.99 0.5 0.5; DriftInterval 0.75 0.25 0 0.99] in
  let s1 := step (DriftInterval 0.25 0.75 0.5 0.5) example_start in
  let sn := run es s1 in
  forallb drift_draws (DriftInterval 0.25 0.75 0.5 0.5 :: es) = true /\
  in_viewport (currentPosition sn) = true /\ in_cruise_band sn = true.
Proof.
  cbv zeta.
  pose proof (idle_drift_is_bounded example_start 0.25 0.75 0.5 0.5
                [DriftInterval 0 0.99 0.5 0.5; DriftInterval 0.75 0.25 0 0.99]
                eq_refl eq_refl eq_refl eq_refl eq_refl eq_refl eq_refl) as H.
  cbv zeta in H. destruct H as (_ & _ & _ & _ & Hp & Hc & _).
  split; [reflexivity |]. split; [exact Hp | exact (proj2 (Hc eq_refl))].
Defined.

(** ** Battery (C9) *)

(** The battery starts at 85 and only [drain] ever changes it, so its
    values are the finitely many drains of 85; what they satisfy is checked
    by running through them. *)
Lemma all_drains_sound P n : forall b,
  all_drains P n b = true ->
  forall k, (k <= n)%nat -> P (Nat.iter k drain b) = true.
Proof.
  induction n as [|n IH]; intros b H k Hk; cbn in H;
    apply andb_true_iff in H; destruct H as (Hb & Hn).
  - replace k with 0%nat by lia. exact Hb.
  - destruct k as [|k]; [exact Hb |].
    rewrite Nat.iter_succ_r. apply IH; [exact Hn | lia].
Qed.

Lemma charge_after_ok k :
  (k <= drains_to_empty)%nat -> charge_ok (charge_after k) = true.
Proof.
  apply all_drains_sound. vm_compute. reflexivity.
Qed.

(** After 8500 drains the battery is empty, and stays so. *)
Lemma charge_after_empty : charge_after drains_to_empty = 0.
Proof. vm_compute. reflexivity. Qed.

Lemma drain_charge_after k :
  (k <= drains_to_empty)%nat ->
  drain (charge_after k) = charge_after (Nat.min (S k) drains_to_empty).
Proof.
  intros Hk. destruct (Nat.eq_dec k drains_to_empty) as [-> | Hne].
  - rewrite Nat.min_r by lia. rewrite charge_after_empty. reflexivity.
  - rewrite Nat.min_l by lia. reflexivity.
Qed.

Lemma batteryTick_battery s :
  battery (batteryTick s) =
  match flightStatus s with StLanded => battery s | _ => drain (battery s) end.
Proof. unfold batteryTick. destruct (flightStatus s); reflexivity. Qed.

(** Only the battery callback writes [battery]. *)
Lemma step_battery e s :
  battery (step e s) =
  match e with
  | BatteryInterval => battery (batteryTick s)
  | _ => battery s
  end.
Proof.
  destruct e; unfold step, handle; cbn [snd]; try reflexivity.
  - unfold overlayClick. destruct (isManualMode s || isLanding s); reflexivity.
  - unfold takeoff. destruct (isLanding s); reflexivity.
  - unfold startLanding. destruct (selectedTarget s); [| reflexivity].
    destruct (isLanding s); reflexivity.
  - unfold cancelLanding. destruct (isLanding s); reflexivity.
  - unfold toggleManualMode. cbn. destruct (negb (isManualMode s)); reflexivity.
  - unfold driftTick. destruct (isLanding s || isManualMode s); [reflexivity |].
    cbn. destruct (flightStatus s); reflexivity.
  - unfold landingIntervalTick.
    destruct (slot_get h (landingIntervals s)) as [step0|]; [| reflexivity].
    destruct (landingSteps <=? step0 + 1)%Z; [reflexivity |].
    cbn. destruct (selectedTarget s); [| reflexivity].
    destruct (Z.rem (step0 + 1) 10 =? 0)%Z; reflexivity.
  - destruct (takeoffTimeouts s); reflexivity.
Qed.

Lemma step_known_charge e s : known_charge s -> known_charge (step e s).
Proof.
  intros (k & Hk & Hb). unfold known_charge. rewrite step_battery.
  destruct e; try (exists k; split; assumption).
  rewrite batteryTick_battery.
  destruct (flightStatus s); try (exists k; split; assumption);
    (exists (Nat.min (S k) drains_to_empty); split;
     [lia | rewrite Hb; apply drain_charge_after, Hk]).
Qed.

Lemma reachable_known_charge page s : Reachable page s -> known_charge s.
Proof.
  induction 1 as [|s e _ IH].
  - exists 0%nat. split; [lia | reflexivity].
  - apply step_known_charge, IH.
Qed.

Lemma known_charge_ok s : known_charge s -> charge_ok (battery s) = true.
Proof. intros (k & Hk & ->). apply charge_after_ok, Hk. Qed.

Lemma step_battery_le e s :
  known_charge s -> (battery (step e s) <=? battery s) = true.
Proof.
  intros Hs. pose proof (known_charge_ok s Hs) as Hok.
  unfold charge_ok in Hok. apply andb_true_iff in Hok. destruct Hok as (Hd & Hb).
  assert (Hrefl : (battery s <=? battery s) = true)
    by (apply leb_refl; eapply between_nonnan; eauto).
  rewrite step_battery. destruct e; try exact Hrefl.
  rewrite batteryTick_battery. destruct (flightStatus s); assumption.
Qed.

Lemma run_battery_le es : forall s,
  known_charge s -> (battery (run es s) <=? battery s) = true.
Proof.
  induction es as [|e es IH]; intros s Hs; cbn.
  - pose proof (known_charge_ok s Hs) as Hok.
    unfold charge_ok in Hok. apply andb_true_iff in Hok. destruct Hok as (_ & Hb).
    apply leb_refl. eapply between_nonnan; eauto.
  - eapply leb_trans; [apply IH, step_known_charge, Hs |].
    apply step_battery_le, Hs.
Qed.

(** C9: in every state the page can reach the battery is between 0 and
    100; no event raises it, and so no sequence of events does; the battery
    tick takes 0.01 off, clamped at 0, unless the status is ['已降落'], and
    every other event leaves the charge as it was. *)
Theorem battery_never_increases (page : Dom) (s : System) (e : Event)
  (es : list Event) :
  Reachable page s ->
  between 0 100 (battery s) = true /\
  (battery (step e s) <=? battery s) = true /\
  (battery (run es s) <=? battery s) = true /\
  battery (step BatteryInterval s) =
    match flightStatus s with
    | StLanded => battery s
    | _ => Math_max 0 (battery s - 0.01)
    end /\
  (e <> BatteryInterval -> battery (step e s) = battery s).
Proof.
  intros Hr. pose proof (reachable_known_charge page s Hr) as Hk.
  pose proof (known_charge_ok s Hk) as Hok.
  unfold charge_ok in Hok. apply andb_true_iff in Hok. destruct Hok as (_ & Hb).
  split; [exact Hb |].
  split; [apply step_battery_le, Hk |].
  split; [apply run_battery_le, Hk |].
  split.
  - rewrite step_battery. apply batteryTick_battery.
  - intros Hne. rewrite step_battery. destruct e; try reflexivity.
    contradiction.
Qed.

Lemma battery_never_increases_witness :
  let s := step BatteryInterval example_start in
  Reachable example_page s /\
  (battery (step BatteryInterval s) <=? battery s) = true /\
  (battery (run [OverlayClick 500 300; BatteryInterval] s) <=? battery s) = true.
Proof.
  cbv zeta.
  assert (Hr : Reachable example_page (step BatteryInterval example_start))
    by apply reach_step, reach_init.
  destruct (battery_never_increases example_page _ BatteryInterval
              [OverlayClick 500 300; BatteryInterval] Hr) as (_ & H1 & H2 & _).
  split; [exact Hr |]. split; assumption.
Defined.

(** ** Safety level (C4) *)

Lemma landingInfo_safety (s : System) :
  info_safety (landingInfo s) =
  if altitude s <? 20 then high
  else if altitude s <? 50 then medium
  else low.
Proof. unfold landingInfo. destruct (selectedTarget s); reflexivity. Qed.

(** C4: the safety level is [high] below 20, [medium] from 20 up to but not
    including 50, and [low] from 50 on; 19.99 is [high], 20.00 and 49.99 are
    [medium], 50.00 is [low]; two states with the same altitude get the same
    level. *)
Theorem safety_level_thresholds (s : System) :
  let a := altitude s in
  let level := info_safety (landingInfo s) in
  ((a <? 20) = true -> level = high) /\
  ((20 <=? a) = true -> (a <? 50) = true -> level = medium) /\
  ((50 <=? a) = true -> level = low) /\
  info_safety (landingInfo (set_altitude 19.99 s)) = high /\
  info_safety (landingInfo (set_altitude 20.00 s)) = medium /\
  info_safety (landingInfo (set_altitude 49.99 s)) = medium /\
  info_safety (landingInfo (set_altitude 50.00 s)) = low /\
  (forall s', altitude s' = a -> info_safety (landingInfo s') = level).
Proof.
  cbv zeta. rewrite !landingInfo_safety. repeat split.
  - intros ->. reflexivity.
  - intros H20 H50. rewrite (leb_not_ltb _ _ H20), H50. reflexivity.
  - intros H50. rewrite (leb_not_ltb _ _ H50).
    destruct (altitude s <? 20) eqn:H20; [| reflexivity].
    pose proof (leb_ltb_trans _ _ _ H50 H20) as Habs. discriminate Habs.
  - intros s' Hs'. rewrite landingInfo_safety, Hs'. reflexivity.
Qed.

(** * Further properties of the controller *)

(** ** The status cell *)

Lemma prefix_includes (text pat : String.string) :
  String.prefix pat text = true -> includes text pat = true.
Proof. intros H. destruct text; cbn [includes]; rewrite H; reflexivity. Qed.

(** A text that includes a pattern includes the pattern less its first
    character. *)
Lemma includes_tail (c : Ascii.ascii) (pat : String.string) :
  forall text, includes text (String.String c pat) = true ->
               includes text pat = true.
Proof.
  induction text as [|b text IH]; cbn [includes]; intros H.
  - cbn in H. discriminate H.
  - apply orb_true_iff in H. destruct H as [H | H].
    + cbn in H. destruct (Ascii.ascii_dec c b); [| discriminate H].
      rewrite (prefix_includes _ _ H). apply orb_true_r.
    + rewrite (IH H). apply orb_true_r.
Qed.

(** X1: [updateStatusDisplay] never adds the class ['status-active'],
    whatever the status text: a text that includes ['已降落'] includes
    ['降落'] and takes the first branch of the chain.  Of the five statuses
    of the script, ['飞行中'] gets no class, ['手动模式'] gets
    ['status-danger'], and ['起飞中'], ['自动降落中'] and ['已降落'] get
    ['status-warning']. *)
Theorem status_active_is_never_shown (text : String.string) :
  ~ In status_active (statusClassList text) /\
  forall st,
    statusClassList (flightStatusText st) =
    match st with
    | StFlying => []
    | StManual => [status_danger]
    | StTakingOff | StAutoLanding | StLanded => [status_warning]
    end.
Proof.
  split.
  - unfold statusClassList.
    repeat match goal with
    | |- context [if includes text ?p then _ else _] =>
        let H := fresh "H" in destruct (includes text p) eqn:H
    end; cbn; try (intuition discriminate).
    match goal with
    | H : includes text _ = true |- _ => do 3 apply includes_tail in H
    end.
    congruence.
  - intros []; vm_compute; reflexivity.
Qed.

(** ** One turn of the event loop *)

(** Case analysis on one turn of the event loop: the event, and the guards
    its handler tests. *)
Ltac event_cases e s :=
  let cx := fresh "cx" in let cy := fresh "cy" in
  let rx := fresh "rx" in let ry := fresh "ry" in
  let ra := fresh "ra" in let rs := fresh "rs" in
  let h := fresh "h" in let r1 := fresh "r1" in let r2 := fresh "r2" in
  let step0 := fresh "step0" in let tgt := fresh "tgt" in
  let pending := fresh "pending" in
  destruct e as [cx cy | | | | | | rx ry ra rs | | h r1 r2 | ];
  unfold step, handle; cbn [snd];
  [ unfold overlayClick;
    destruct (isManualMode s) eqn:Emanual; destruct (isLanding s) eqn:Elanding;
    cbn [orb]
  | unfold takeoff; destruct (isLanding s) eqn:Elanding
  | unfold startLanding; destruct (selectedTarget s) as [tgt|] eqn:Etarget;
    [destruct (isLanding s) eqn:Elanding |]
  | unfold cancelLanding; destruct (isLanding s) eqn:Elanding
  | unfold toggleManualMode; cbn [isManualMode set_isManualMode];
    destruct (isManualMode s) eqn:Emanual; cbn [negb]
  | unfold landingModeChange
  | unfold driftTick;
    destruct (isLanding s) eqn:Elanding; destruct (isManualMode s) eqn:Emanual;
    cbn [orb]; [| | | cbn [flightStatus set_currentPosition];
                      destruct (flightStatus s) eqn:Estatus]
  | unfold batteryTick; destruct (flightStatus s) eqn:Estatus
  | unfold landingIntervalTick;
    destruct (slot_get h (landingIntervals s)) as [step0|] eqn:Eslot;
    [ destruct (landingSteps <=? step0 + 1)%Z eqn:Elast;
      [| cbn [selectedTarget set_speed set_altitude set_landingIntervals];
         destruct (selectedTarget s) as [tgt|] eqn:Etarget;
         [destruct (Z.rem (step0 + 1) 10 =? 0)%Z eqn:Etenth |] ]
    |]
  | destruct (takeoffTimeouts s) as [|pending] eqn:Epending ];
  cbn [snd].

Lemma reachable_run (page : Dom) (es : list Event) : forall s,
  Reachable page s -> Reachable page (run es s).
Proof.
  induction es as [|e es IH]; intros s Hs; cbn; [exact Hs |].
  apply IH, reach_step, Hs.
Qed.

(** ** Timer tables *)

Lemma slot_get_lt (h : nat) (l : list (option Z)) (k : Z) :
  slot_get h l = Some k -> (h < length l)%nat.
Proof.
  unfold slot_get. intros H. apply nth_error_Some.
  destruct (nth_error l h); [discriminate | discriminate H].
Qed.

Lemma slot_get_set_other (h h' : nat) (v : option Z) (l : list (option Z)) :
  h' <> h -> slot_get h' (slot_set h v l) = slot_get h' l.
Proof.
  unfold slot_get. revert h h'.
  induction l as [|a l IH]; intros [|h] [|h'] Hne; cbn; try reflexivity;
    try contradiction.
  apply IH. congruence.
Qed.

Lemma slot_get_app (h : nat) (l : list (option Z)) (v k : Z) :
  slot_get h (l ++ [Some v]) = Some k ->
  slot_get h l = Some k \/ (h = length l /\ k = v).
Proof.
  unfold slot_get. intros H.
  destruct (Nat.lt_ge_cases h (length l)) as [Hlt | Hge].
  - rewrite nth_error_app1 in H by exact Hlt. left. exact H.
  - rewrite nth_error_app2 in H by exact Hge.
    destruct (h - length l)%nat as [|n] eqn:E; cbn in H.
    + right. split; [lia | congruence].
    + destruct n; discriminate H.
Qed.

Lemma slot_set_set (h : nat) (v w : option Z) (l : list (option Z)) :
  slot_set h v (slot_set h w l) = slot_set h v l.
Proof.
  revert h. induction l as [|a l IH]; intros [|h]; cbn; try reflexivity.
  f_equal. apply IH.
Qed.

Lemma live_timers_app (l : list (option Z)) (v : Z) :
  live_timers (l ++ [Some v]) = S (live_timers l).
Proof. induction l as [|[a|] l IH]; cbn; auto. Qed.

(** Stepping a live timer keeps the number of live timers, clearing it
    takes one off. *)
Lemma live_timers_set (h : nat) (l : list (option Z)) (k : Z) :
  slot_get h l = Some k ->
  (forall k', live_timers (slot_set h (Some k') l) = live_timers l) /\
  S (live_timers (slot_set h None l)) = live_timers l.
Proof.
  unfold slot_get. revert h.
  induction l as [|a l IH]; intros [|h] H; cbn in H; try discriminate H.
  - destruct a; [| discriminate H]. split; reflexivity.
  - destruct (IH h H) as (IH1 & IH2).
    split; [intros k' |]; cbn; destruct a; cbn; auto.
Qed.

Lemma live_timers_pos (l : list (option Z)) :
  (0 < live_timers l)%nat <-> exists h k, slot_get h l = Some k.
Proof.
  unfold slot_get. induction l as [|a l IH]; cbn.
  - split; [lia | intros ([|h] & k & H); discriminate H].
  - destruct a as [k|].
    + split; [intros _; exists 0%nat, k; reflexivity | lia].
    + rewrite IH. split.
      * intros (h & k & H). exists (S h), k. exact H.
      * intros ([|h] & k & H); [discriminate H |]. exists h, k. exact H.
Qed.

Lemma live_timers_two (l : list (option Z)) : forall h h' k k',
  slot_get h l = Some k -> slot_get h' l = Some k' -> h <> h' ->
  (2 <= live_timers l)%nat.
Proof.
  induction l as [|a l IH]; intros [|h] [|h'] k k' H H' Hne;
    try discriminate H; try discriminate H'; try contradiction.
  - assert (0 < live_timers l)%nat
      by (apply live_timers_pos; exists h', k'; exact H').
    unfold slot_get in H. cbn in H. destruct a; [cbn; lia | discriminate H].
  - assert (0 < live_timers l)%nat
      by (apply live_timers_pos; exists h, k; exact H).
    unfold slot_get in H'. cbn in H'. destruct a; [cbn; lia | discriminate H'].
  - assert (2 <= live_timers l)%nat
      by (apply (IH h h' k k' H H'); congruence).
    cbn. destruct a; lia.
Qed.

(** ** Descent timers run to their end *)

Lemma step_timers_in_range e s : timers_in_range s -> timers_in_range (step e s).
Proof.
  intros Hs. unfold timers_in_range.
  event_cases e s; try exact Hs; cbn; try exact Hs.
  - (* startLanding: a new timer, at step 0 *)
    intros h' k H. apply slot_get_app in H.
    destruct H as [H | (_ & ->)]; [exact (Hs h' k H) | unfold landingSteps; lia].
  - (* the last step: the timer is cleared *)
    intros h' k H. rewrite slot_set_set in H.
    destruct (Nat.eq_dec h' h) as [-> | Hne].
    + rewrite slot_get_set in H by (eapply slot_get_lt; eauto). discriminate H.
    + rewrite slot_get_set_other in H by exact Hne. exact (Hs h' k H).
  - intros h' k H.
    destruct (Nat.eq_dec h' h) as [-> | Hne].
    + rewrite slot_get_set in H by (eapply slot_get_lt; eauto).
      injection H as <-. apply Z.leb_gt in Elast.
      specialize (Hs h step0 Eslot). lia.
    + rewrite slot_get_set_other in H by exact Hne. exact (Hs h' k H).
  - intros h' k H.
    destruct (Nat.eq_dec h' h) as [-> | Hne].
    + rewrite slot_get_set in H by (eapply slot_get_lt; eauto).
      injection H as <-. apply Z.leb_gt in Elast.
      specialize (Hs h step0 Eslot). lia.
    + rewrite slot_get_set_other in H by exact Hne. exact (Hs h' k H).
  - intros h' k H.
    destruct (Nat.eq_dec h' h) as [-> | Hne].
    + rewrite slot_get_set in H by (eapply slot_get_lt; eauto).
      injection H as <-. apply Z.leb_gt in Elast.
      specialize (Hs h step0 Eslot). lia.
    + rewrite slot_get_set_other in H by exact Hne. exact (Hs h' k H).
Qed.

Lemma reachable_timers_in_range page s : Reachable page s -> timers_in_range s.
Proof.
  induction 1 as [|s e _ IH].
  - intros [|h] k H; discriminate H.
  - apply step_timers_in_range, IH.
Qed.

(** A firing of a live timer before its last step: with or without a
    target, the counter, the altitude and the speed are written. *)
Lemma landingIntervalTick_live (h : nat) (r1 r2 : float) (s : System) (k : Z) :
  slot_get h (landingIntervals s) = Some k -> (k + 1 < landingSteps)%Z ->
  let s' := step (LandingInterval h r1 r2) s in
  slot_get h (landingIntervals s') = Some (k + 1)%Z /\
  altitude s' = 120 - of_Z (k + 1) * 1.2 /\
  speed s' = 5.2 - of_Z (k + 1) * 0.02 /\
  isLanding s' = isLanding s /\ selectedTarget s' = selectedTarget s /\
  flightStatus s' = flightStatus s.
Proof.
  intros Hs Hk. pose proof (slot_get_lt _ _ _ Hs) as Hh.
  unfold step, handle, landingIntervalTick. rewrite Hs.
  replace (landingSteps <=? k + 1)%Z with false
    by (symmetry; apply Z.leb_gt; exact Hk).
  cbn [selectedTarget set_speed set_altitude set_landingIntervals].
  destruct (selectedTarget s) as [t|] eqn:Ht;
    [destruct (Z.rem (k + 1) 10 =? 0)%Z |]; cbn;
    rewrite ?Ht, slot_get_set by exact Hh; repeat split; reflexivity.
Qed.

(** The last firing of a live timer. *)
Lemma landingIntervalTick_final (h : nat) (r1 r2 : float) (s : System) (k : Z) :
  slot_get h (landingIntervals s) = Some k -> (landingSteps <= k + 1)%Z ->
  let s' := step (LandingInterval h r1 r2) s in
  slot_get h (landingIntervals s') = None /\
  altitude s' = 0 /\ speed s' = 0 /\ isLanding s' = false /\
  selectedTarget s' = None /\ flightStatus s' = StLanded.
Proof.
  intros Hs Hk. pose proof (slot_get_lt _ _ _ Hs) as Hh.
  unfold step, handle, landingIntervalTick. rewrite Hs.
  replace (landingSteps <=? k + 1)%Z with true
    by (symmetry; apply Z.leb_le; exact Hk).
  cbn. rewrite slot_set_set, slot_get_set by exact Hh. repeat split; reflexivity.
Qed.

(** A live timer that is [n + 1] firings from its last step, fired that
    often. *)
Lemma run_live_timer (h : nat) (n : nat) : forall (s : System) (k : Z) rs,
  slot_get h (landingIntervals s) = Some k ->
  (k + Z.of_nat n + 1 = landingSteps)%Z -> length rs = S n ->
  let s' := run (descent_events h rs) s in
  slot_get h (landingIntervals s') = None /\
  altitude s' = 0 /\ speed s' = 0 /\ isLanding s' = false /\
  selectedTarget s' = None /\ flightStatus s' = StLanded.
Proof.
  induction n as [|n IH]; intros s k rs Hs Hk Hlen;
    destruct rs as [|r rs]; try discriminate Hlen.
  - destruct rs; [| discriminate Hlen]. cbn.
    apply (landingIntervalTick_final h (fst r) (snd r) s k Hs). lia.
  - cbn [descent_events map run fold_left].
    destruct (landingIntervalTick_live h (fst r) (snd r) s k Hs ltac:(lia))
      as (Hs' & _).
    apply (IH _ (k + 1)%Z rs Hs'); [lia |]. cbn in Hlen. lia.
Qed.

(** X2: in every state the page can reach, a live descent timer has made
    fewer than 100 steps, and its remaining firings -- whether or not its
    landing was cancelled, with or without a target, whatever the draws --
    clear the timer and leave the vehicle landed: altitude 0, speed 0, no
    target. *)
Theorem live_timer_runs_to_completion (page : Dom) (s : System) (h : nat)
  (k : Z) (rs : list (float * float)) :
  Reachable page s -> slot_get h (landingIntervals s) = Some k ->
  Z.of_nat (length rs) = (landingSteps - k)%Z ->
  let s' := run (descent_events h rs) s in
  (0 <= k < landingSteps)%Z /\
  slot_get h (landingIntervals s') = None /\
  altitude s' = 0 /\ speed s' = 0 /\ mode s' = Landed /\
  selectedTarget s' = None.
Proof.
  intros Hr Hs Hlen s'.
  pose proof (reachable_timers_in_range page s Hr h k Hs) as Hk.
  split; [exact Hk |].
  destruct (run_live_timer h (Nat.pred (length rs)) s k rs Hs)
    as (H1 & H2 & H3 & H4 & H5 & H6); [lia | lia |].
  fold s' in H1, H2, H3, H4, H5, H6.
  repeat (split; [assumption |]). split; [| assumption].
  unfold mode. rewrite H4, H6. reflexivity.
Qed.

Lemma live_timer_runs_to_completion_witness :
  let s := run busy_descent example_start in
  let s' := run (descent_events 0 (repeat (0.5, 0.5) 98)) s in
  Reachable example_page s /\
  slot_get 0 (landingIntervals s) = Some 2%Z /\
  altitude s' = 0 /\ speed s' = 0 /\ mode s' = Landed.
Proof.
  cbv zeta.
  assert (Hr : Reachable example_page (run busy_descent example_start))
    by apply reachable_run, reach_init.
  destruct (live_timer_runs_to_completion example_page _ 0 2
              (repeat (0.5, 0.5) 98) Hr eq_refl eq_refl)
    as (_ & _ & Ha & Hv & Hm & _).
  split; [exact Hr |]. split; [reflexivity |]. repeat split; assumption.
Defined.

Lemma step_landing_has_timer e s :
  (isLanding s = true -> (0 < live_timers (landingIntervals s))%nat) ->
  isLanding (step e s) = true ->
  (0 < live_timers (landingIntervals (step e s)))%nat.
Proof.
  intros Hs. event_cases e s; cbn; rewrite ?Elanding; try exact Hs;
    try discriminate.
  - intros _. rewrite live_timers_app. lia.
  - intros H. rewrite (proj1 (live_timers_set h _ _ Eslot)). exact (Hs H).
  - intros H. rewrite (proj1 (live_timers_set h _ _ Eslot)). exact (Hs H).
  - intros H. rewrite (proj1 (live_timers_set h _ _ Eslot)). exact (Hs H).
Qed.

(** X3: in every state the page can reach, a landing in progress has a
    live descent timer, one with fewer than 100 steps behind it: the
    controller is never left in [Landing] without a timer that will end
    it. *)
Theorem landing_has_a_live_timer (page : Dom) (s : System) :
  Reachable page s -> isLanding s = true ->
  exists h k, slot_get h (landingIntervals s) = Some k /\
              (0 <= k < landingSteps)%Z.
Proof.
  intros Hr Hl.
  assert (H : isLanding s = true -> (0 < live_timers (landingIntervals s))%nat).
  { clear Hl. induction Hr as [|s e _ IH]; [discriminate |].
    apply step_landing_has_timer, IH. }
  apply H, live_timers_pos in Hl. destruct Hl as (h & k & Hs).
  exists h, k. split; [exact Hs |].
  exact (reachable_timers_in_range page s Hr h k Hs).
Qed.

Lemma landing_has_a_live_timer_witness :
  let s := run busy_descent example_start in
  Reachable example_page s /\ isLanding s = true /\
  exists h k, slot_get h (landingIntervals s) = Some k /\
              (0 <= k < landingSteps)%Z.
Proof.
  cbv zeta.
  assert (Hr : Reachable example_page (run busy_descent example_start))
    by apply reachable_run, reach_init.
  split; [exact Hr |]. split; [reflexivity |].
  exact (landing_has_a_live_timer example_page _ Hr eq_refl).
Defined.

(** ** Status text, flags and buttons *)

Lemma step_status_consistent e s :
  status_consistent s = true -> status_consistent (step e s) = true.
Proof.
  unfold status_consistent.
  event_cases e s; cbn; rewrite ?Elanding, ?Emanual, ?Estatus, ?Epending;
    try reflexivity; try (intros H; exact H).
  all: destruct (flightStatus s); cbn; try reflexivity; try discriminate;
    try (intros H; exact H).
  all: intros H; apply andb_true_iff in H; destruct H as (H1 & H2);
    try discriminate H2; rewrite ?H1; try reflexivity.
Qed.

(** X4: in every state the page can reach, the status text agrees with
    the flags: ['自动降落中'] is shown only while [isLanding] is set,
    ['已降落'] and ['起飞中'] only while it is not, ['起飞中'] only while a
    take-off timeout is pending (so the status cannot stay there), and
    ['手动模式'] only in manual mode. *)
Theorem status_text_matches_flags (page : Dom) (s : System) :
  Reachable page s ->
  (flightStatus s = StAutoLanding -> mode s = Landing) /\
  (flightStatus s = StLanded -> mode s = Landed) /\
  (flightStatus s = StTakingOff ->
   mode s = TakingOff /\ (0 < takeoffTimeouts s)%nat) /\
  (flightStatus s = StManual -> controlMode s = Manual).
Proof.
  intros Hr.
  assert (H : status_consistent s = true).
  { induction Hr as [|s e _ IH]; [reflexivity |].
    apply step_status_consistent, IH. }
  unfold status_consistent in H. unfold mode, controlMode.
  split; [| split; [| split]]; intros E; rewrite E in H; cbn in H.
  - rewrite H. reflexivity.
  - apply negb_true_iff in H. rewrite H, E. reflexivity.
  - apply andb_true_iff in H. destruct H as (H & Hp).
    apply negb_true_iff in H. rewrite H, E.
    split; [reflexivity |]. destruct (takeoffTimeouts s); [discriminate Hp | lia].
  - rewrite H. reflexivity.
Qed.

Lemma status_text_matches_flags_witness :
  let s := run (firstn 5 busy_descent) example_start in
  Reachable example_page s /\ flightStatus s = StManual /\
  controlMode s = Manual.
Proof.
  cbv zeta.
  assert (Hr : Reachable example_page
                 (run (firstn 5 busy_descent) example_start))
    by apply reachable_run, reach_init.
  destruct (status_text_matches_flags example_page _ Hr) as (_ & _ & _ & H).
  split; [exact Hr |]. split; [reflexivity | exact (H eq_refl)].
Defined.

Lemma step_buttons_show_guards e s :
  buttons_show_guards s -> buttons_show_guards (step e s).
Proof.
  unfold buttons_show_guards, illegal. intros (Hl & Ht & Hc).
  event_cases e s; cbn; rewrite ?Elanding, ?Etarget in *; cbn;
    repeat split; assumption || reflexivity.
Qed.

(** X5: on a page that starts with the land and the cancel button disabled
    and the take-off button enabled, the [disabled] flags follow the guards
    of the script in every reachable state: a button is enabled exactly
    when its command would not be refused -- landing with a target and
    outside a landing, take-off outside a landing, cancel during one. *)
Theorem buttons_follow_guards (page : Dom) (s : System) (e : Event) :
  land_btn_disabled page = true -> takeoff_btn_disabled page = false ->
  cancel_btn_disabled page = true ->
  Reachable page s ->
  offered e (dom s) = negb (illegal e s).
Proof.
  intros Hl Ht Hc Hr.
  assert (H : buttons_show_guards s).
  { induction Hr as [|s e' _ IH].
    - repeat split; assumption.
    - apply step_buttons_show_guards, IH. }
  destruct H as (H1 & H2 & H3).
  destruct e; cbn [offered]; rewrite ?H1, ?H2, ?H3; reflexivity.
Qed.

Lemma buttons_follow_guards_witness :
  let s := run busy_descent example_start in
  Reachable example_page s /\
  offered CancelBtn (dom s) = true /\ illegal CancelBtn s = false /\
  offered LandBtn (dom s) = false /\ illegal LandBtn s = true.
Proof.
  cbv zeta.
  assert (Hr : Reachable example_page (run busy_descent example_start))
    by apply reachable_run, reach_init.
  pose proof (buttons_follow_guards example_page _ CancelBtn
                eq_refl eq_refl eq_refl Hr) as H1.
  pose proof (buttons_follow_guards example_page _ LandBtn
                eq_refl eq_refl eq_refl Hr) as H2.
  split; [exact Hr |].
  assert (Hc : illegal CancelBtn (run busy_descent example_start) = false)
    by reflexivity.
  assert (Hl : illegal LandBtn (run busy_descent example_start) = true)
    by reflexivity.
  rewrite Hc in H1. rewrite Hl in H2. repeat split; assumption.
Defined.

(** ** The envelope of altitude and speed *)

(** What holds of the steps 1 to 99 holds of the step a live timer
    makes. *)
Lemma descent_steps_all (P : Z -> bool) (n : Z) :
  forallb P descent_steps = true -> (1 <= n <= 99)%Z -> P n = true.
Proof.
  intros H Hn. rewrite forallb_forall in H. apply H.
  unfold descent_steps. replace n with (Z.of_nat (Z.to_nat n)) by lia.
  apply in_map, in_seq. lia.
Qed.

Lemma step_in_envelope e s :
  unit_draws e = true -> timers_in_range s ->
  in_envelope s = true -> in_envelope (step e s) = true.
Proof.
  intros He Ht Hs. pose proof Hs as Hs'. unfold in_envelope in Hs'.
  apply andb_true_iff in Hs'. destruct Hs' as (Ha & Hv).
  event_cases e s; try exact Hs; unfold in_envelope; cbn;
    try (rewrite Ha, Hv; reflexivity); try (rewrite Hv; reflexivity);
    try reflexivity.
  - (* drift in the status '飞行中' *)
    cbn [unit_draws] in He.
    apply andb_true_iff in He. destruct He as (He & Hrs).
    apply andb_true_iff in He. destruct He as (He & Hra).
    apply andb_true_iff. split.
    + apply (between_trans 115 125); [reflexivity | reflexivity |].
      apply (drift_axis 115 125 _ ra 0.2 false 7205759403792794 (-55));
        [reflexivity | | assumption | reflexivity].
      exact (between_finite 0 125 _ eq_refl eq_refl Ha).
    + apply (between_trans 4.5 6.0); [reflexivity | reflexivity |].
      apply (drift_axis 4.5 6.0 _ rs 0.1 false 7205759403792794 (-56));
        [reflexivity | | assumption | reflexivity].
      exact (between_finite 0 6 _ eq_refl eq_refl Hv).
  - (* a descent step *)
    apply Z.leb_gt in Elast. specialize (Ht h step0 Eslot).
    apply (descent_steps_all
             (fun n => between 0 125 (descent_altitude n) &&
                       between 0 6 (descent_speed n)));
      [vm_compute; reflexivity | unfold landingSteps in *; lia].
  - apply Z.leb_gt in Elast. specialize (Ht h step0 Eslot).
    apply (descent_steps_all
             (fun n => between 0 125 (descent_altitude n) &&
                       between 0 6 (descent_speed n)));
      [vm_compute; reflexivity | unfold landingSteps in *; lia].
  - apply Z.leb_gt in Elast. specialize (Ht h step0 Eslot).
    apply (descent_steps_all
             (fun n => between 0 125 (descent_altitude n) &&
                       between 0 6 (descent_speed n)));
      [vm_compute; reflexivity | unfold landingSteps in *; lia].
Qed.

Lemma run_in_envelope es : forall s,
  forallb unit_draws es = true -> timers_in_range s ->
  in_envelope s = true -> in_envelope (run es s) = true.
Proof.
  induction es as [|e es IH]; intros s Hes Ht Hs; cbn [run fold_left];
    [exact Hs |].
  cbn in Hes. apply andb_true_iff in Hes. destruct Hes as (He & Hes).
  apply IH; [exact Hes | apply step_timers_in_range, Ht |].
  apply step_in_envelope; assumption.
Qed.

(** X6: along every run of the page whose [Math.random()] draws are in
    [0, 1), the altitude stays between 0 and 125 and the speed between 0
    and 6 (neither is ever negative, infinite or NaN), whatever the order
    of clicks, button presses and timer firings. *)
Theorem altitude_and_speed_stay_in_envelope (page : Dom) (es : list Event) :
  forallb unit_draws es = true ->
  let s := run es (newLandingAssistSystem page) in
  between 0 125 (altitude s) = true /\ between 0 6 (speed s) = true.
Proof.
  intros Hes s. apply andb_true_iff.
  apply run_in_envelope; [exact Hes | | reflexivity].
  intros [|h] k H; discriminate H.
Qed.

Lemma altitude_and_speed_stay_in_envelope_witness :
  let es := busy_descent ++ [DriftInterval 0.25 0.75 0 0.99; CancelBtn;
                             DriftInterval 0.25 0.75 0 0.99] in
  let s := run es (newLandingAssistSystem example_page) in
  forallb unit_draws es = true /\
  between 0 125 (altitude s) = true /\ between 0 6 (speed s) = true.
Proof.
  cbv zeta. split; [reflexivity |].
  exact (altitude_and_speed_stay_in_envelope example_page
           (busy_descent ++ [DriftInterval 0.25 0.75 0 0.99; CancelBtn;
                             DriftInterval 0.25 0.75 0 0.99]) eq_refl).
Defined.

(** ** The ETA of a vehicle at its target *)

(** A finite value less itself is [+0]. *)
Lemma sub_diag (v : float) : finite v = true -> v - v = 0.
Proof.
  unfold finite. intros Hv. apply Prim2SF_inj. rewrite sub_spec.
  change (Prim2SF 0) with (S754_zero false).
  destruct (Prim2SF v) as [s | s | | s m e]; try discriminate Hv.
  - destruct s; reflexivity.
  - unfold SF64sub, SFsub. cbv zeta. rewrite Z.sub_diag. reflexivity.
Qed.

(** [+0] divided by anything is a zero or NaN, never above zero. *)
Lemma zero_div_not_positive (v : float) : (0 <? 0 / v) = false.
Proof.
  rewrite ltb_spec, div_spec.
  change (Prim2SF 0) with (S754_zero false).
  destruct (Prim2SF v) as [s | s | | s m e]; reflexivity.
Qed.

(** X7: when the selected target is the current position (finite
    coordinates), the ETA cell shows ['--'] for every speed, zero, negative,
    infinite and NaN included: the distance is 0 and [0 / speed] is never
    above zero. *)
Theorem eta_at_target_is_dashes (s : System) (t : Point) :
  selectedTarget s = Some t ->
  x t = x (currentPosition s) -> y t = y (currentPosition s) ->
  finite (x t) = true -> finite (y t) = true ->
  info_eta (landingInfo s) = EtaDashes.
Proof.
  intros Ht Hx Hy Fx Fy. unfold landingInfo. rewrite Ht. cbn [info_eta].
  rewrite <- Hx, <- Hy, (sub_diag _ Fx), (sub_diag _ Fy).
  change (sqrt (Math_pow2 0 + Math_pow2 0)) with 0.
  rewrite zero_div_not_positive. reflexivity.
Qed.

Lemma eta_at_target_is_dashes_witness :
  info_eta (landingInfo (step (OverlayClick 400 300) example_start))
  = EtaDashes.
Proof.
  exact (eta_at_target_is_dashes (step (OverlayClick 400 300) example_start)
           (mkPoint 400 300) eq_refl eq_refl eq_refl eq_refl eq_refl).
Defined.

(** ** A descent among other events *)

(** An event that does not disturb the descent on timer [h], and is not a
    firing of that timer, leaves the descent where it is. *)
Lemma step_keeps_descending (t : Point) (h k : nat) (e : Event) (st : System) :
  descending t h k st -> disturbs h e = false -> firings h [e] = 0%nat ->
  descending t h k (step e st).
Proof.
  intros (Hl & Ht & Hs & Hh) Hd Hf.
  event_cases e st; try discriminate Hd; try congruence;
    unfold descending; cbn;
    try solve [repeat split; first [assumption | congruence]].
  all: cbn in Hd, Hf;
    match type of Hf with context [(?a =? ?b)%nat] => destruct (a =? b)%nat end;
    discriminate.
Qed.

Lemma firings_cons (h : nat) (e : Event) (es : list Event) :
  firings h (e :: es) = (firings h [e] + firings h es)%nat.
Proof.
  destruct e; cbn; try reflexivity.
  match goal with |- context [(?a =? ?b)%nat] => destruct (a =? b)%nat end;
    reflexivity.
Qed.

Lemma firings_app (h : nat) (a b : list Event) :
  firings h (a ++ b) = (firings h a + firings h b)%nat.
Proof.
  induction a as [|e a IH]; [reflexivity |].
  cbn [app]. rewrite (firings_cons h e (a ++ b)), (firings_cons h e a), IH. lia.
Qed.

Lemma run_keeps_descending (t : Point) (h : nat) es : forall k st,
  descending t h k st ->
  forallb (fun e => negb (disturbs h e)) es = true ->
  (k + firings h es <= 99)%nat ->
  descending t h (k + firings h es) (run es st).
Proof.
  induction es as [|e es IH]; intros k st Hd Hes Hle.
  - cbn. rewrite Nat.add_0_r. exact Hd.
  - cbn [forallb] in Hes. apply andb_true_iff in Hes. destruct Hes as (He & Hes).
    apply negb_true_iff in He. cbn [run fold_left].
    change (fold_left (fun st0 e0 => step e0 st0) es (step e st))
      with (run es (step e st)).
    rewrite firings_cons in *.
    destruct (firings h [e]) as [|[|n]] eqn:Hf.
    + cbn [Nat.add]. apply IH; [| exact Hes | lia].
      apply step_keeps_descending; assumption.
    + replace (k + (1 + firings h es))%nat with (S k + firings h es)%nat by lia.
      apply IH; [| exact Hes | lia].
      destruct e as [ | | | | | | | | h' r1 r2 | ]; try discriminate Hf.
      cbn in Hf. destruct (h' =? h)%nat eqn:Ehh; [| discriminate Hf].
      apply Nat.eqb_eq in Ehh. subst h'.
      apply (landingIntervalTick_descending _ _ Hd). lia.
    + destruct e as [ | | | | | | | | h' r1 r2 | ]; try discriminate Hf.
      cbn in Hf. destruct (h' =? h)%nat; discriminate Hf.
Qed.

(** X8: a descent is not derailed by other events.  From a state with a
    target and no landing in progress, [startLanding()] followed by any
    events among which its timer fires 99 times, no cancel is pressed and
    no other descent timer fires -- clicks, presses of the take-off, land
    and manual buttons, drift and battery ticks, take-off timeouts -- keeps
    the controller in [Landing] with the step counter equal to the number
    of firings so far, and the 100th firing leaves it [Landed] with
    altitude 0, speed 0, the target and the timer cleared. *)
Theorem descent_survives_other_events (s : System) (t : Point)
  (es : list Event) (r1 r2 : float) :
  selectedTarget s = Some t -> isLanding s = false ->
  let h := length (landingIntervals s) in
  forallb (fun e => negb (disturbs h e)) es = true ->
  firings h es = 99%nat ->
  let s' := run (es ++ [LandingInterval h r1 r2]) (startLanding s) in
  (forall es1 es2, es = es1 ++ es2 ->
     mode (run es1 (startLanding s)) = Landing /\
     slot_get h (landingIntervals (run es1 (startLanding s)))
       = Some (Z.of_nat (firings h es1))) /\
  mode s' = Landed /\ altitude s' = 0 /\ speed s' = 0 /\
  selectedTarget s' = None /\ slot_get h (landingIntervals s') = None.
Proof.
  intros Ht Hl h Hes Hf s'.
  assert (Hd0 := startLanding_descending s t Ht Hl). fold h in Hd0.
  split.
  - intros es1 es2 E. subst es. rewrite forallb_app in Hes.
    apply andb_true_iff in Hes. destruct Hes as (Hes1 & _).
    rewrite firings_app in Hf.
    destruct (run_keeps_descending t h es1 0 _ Hd0 Hes1 ltac:(lia))
      as (Hl1 & _ & Hs1 & _).
    split; [| exact Hs1]. unfold mode. rewrite Hl1. reflexivity.
  - pose proof (run_keeps_descending t h es 0 _ Hd0 Hes ltac:(lia)) as Hd.
    rewrite Hf in Hd. cbn [Nat.add] in Hd.
    destruct (landingIntervalTick_completes r1 r2 Hd)
      as (Ha & Hv & Hil & Hfs & Hst & Hsl & _).
    unfold s'. rewrite run_app. cbn [run fold_left].
    repeat split; try assumption.
    unfold mode. rewrite Hil, Hfs. reflexivity.
Qed.

Lemma descent_survives_other_events_witness :
  let s := step (OverlayClick 500 300) example_start in
  let s' := run (crowded_descent 0 99 ++ [LandingInterval 0 0.5 0.5])
                (startLanding s) in
  selectedTarget s = Some (mkPoint 500 300) /\
  firings 0 (crowded_descent 0 99) = 99%nat /\
  mode s' = Landed /\ altitude s' = 0 /\ speed s' = 0.
Proof.
  cbv zeta.
  pose proof (descent_survives_other_events
                (step (OverlayClick 500 300) example_start) (mkPoint 500 300)
                (crowded_descent 0 99) 0.5 0.5
                eq_refl eq_refl eq_refl eq_refl) as H.
  cbv zeta in H. destruct H as (_ & Hm & Ha & Hv & _).
  change (length (landingIntervals (step (OverlayClick 500 300) example_start)))
    with 0%nat in *.
  repeat split; assumption.
Defined.

(** X9: a take-off timeout that expires during a descent is not held
    back: it writes the status ['飞行中'], altitude 120 and the position
    (400, 300) in the middle of the descent, which goes on from there
    (the controller stays in [Landing], target and step counter are
    kept). *)
Theorem takeoff_completion_during_descent (t : Point) (h k : nat) (s : System) :
  descending t h k s -> (0 < takeoffTimeouts s)%nat ->
  let s' := step TakeoffDone s in
  descending t h k s' /\ mode s' = Landing /\
  flightStatus s' = StFlying /\ altitude s' = 120 /\
  currentPosition s' = mkPoint 400 300 /\
  takeoffTimeouts s' = Nat.pred (takeoffTimeouts s).
Proof.
  intros (Hl & Ht & Hs & Hh) Hp. unfold step, handle, mode, descending.
  destruct (takeoffTimeouts s) as [|n]; [lia |].
  cbn. rewrite Hl. repeat split; assumption.
Qed.

Lemma takeoff_completion_during_descent_witness :
  let s := run (firstn 4 busy_descent) example_start in
  let s' := step TakeoffDone s in
  descending (mkPoint 500 300) 0 1 s /\
  descending (mkPoint 500 300) 0 1 s' /\
  altitude s = 120 - 1.2 /\ altitude s' = 120 /\
  currentPosition s' = mkPoint 400 300.
Proof.
  cbv zeta.
  assert (Hd : descending (mkPoint 500 300) 0 1
                 (run (firstn 4 busy_descent) example_start)).
  { unfold descending. repeat split; try reflexivity. cbn. lia. }
  destruct (takeoff_completion_during_descent _ _ _ _ Hd ltac:(cbn; lia))
    as (Hd' & _ & _ & Ha & Hp & _).
  split; [exact Hd |]. split; [exact Hd' |].
  split; [vm_compute; reflexivity |]. split; [exact Ha | exact Hp].
Defined.

(** ** The profile of a descent *)

(** After [length rs >= 1] firings a fresh descent has set altitude and
    speed from its step counter alone. *)
Lemma run_descent_profile (s : System) (t : Point) (rs : list (float * float)) :
  selectedTarget s = Some t -> isLanding s = false ->
  (1 <= length rs <= 99)%nat ->
  let h := length (landingIntervals s) in
  let s' := run (descent_events h rs) (startLanding s) in
  descending t h (length rs) s' /\
  altitude s' = descent_altitude (Z.of_nat (length rs)) /\
  speed s' = descent_speed (Z.of_nat (length rs)).
Proof.
  intros Ht Hl Hlen h s'.
  assert (Hd0 := startLanding_descending s t Ht Hl). fold h in Hd0.
  destruct (exists_last (l := rs)) as (rs0 & r & E);
    [intros ->; cbn in Hlen; lia |].
  assert (Hn : length rs = S (length rs0))
    by (rewrite E, length_app; cbn; lia).
  pose proof (run_descending rs0 0 _ Hd0 ltac:(lia)) as Hd. cbn [Nat.add] in Hd.
  assert (Es' : s' = step (LandingInterval h (fst r) (snd r))
                       (run (descent_events h rs0) (startLanding s))).
  { unfold s'. rewrite E. unfold descent_events.
    rewrite map_app, run_app. reflexivity. }
  rewrite Es', Hn. split.
  - apply (landingIntervalTick_descending _ _ Hd). lia.
  - destruct Hd as (_ & _ & Hs & _).
    destruct (landingIntervalTick_live h (fst r) (snd r) _ _ Hs
                ltac:(unfold landingSteps; lia)) as (_ & Ha & Hv & _).
    rewrite Ha, Hv.
    replace (Z.of_nat (length rs0) + 1)%Z with (Z.of_nat (S (length rs0))) by lia.
    split; reflexivity.
Qed.

(** X10: after [n] firings of a fresh descent timer, [1 <= n <= 99], the
    altitude is [120 - n * 1.2] and the speed [5.2 - n * 0.02] whatever
    they were when the landing started (a descent started on the ground
    jumps to 118.8); both are above zero, and the next firing lowers both
    strictly (the 100th sets them to 0). *)
Theorem descent_lowers_altitude_and_speed (s : System) (t : Point)
  (rs : list (float * float)) (r1 r2 : float) :
  selectedTarget s = Some t -> isLanding s = false ->
  (1 <= length rs <= 99)%nat ->
  let h := length (landingIntervals s) in
  let n := Z.of_nat (length rs) in
  let s' := run (descent_events h rs) (startLanding s) in
  let s'' := step (LandingInterval h r1 r2) s' in
  altitude s' = 120 - of_Z n * 1.2 /\
  speed s' = 5.2 - of_Z n * 0.02 /\
  (0 <? altitude s') = true /\ (0 <? speed s') = true /\
  (altitude s'' <? altitude s') = true /\ (speed s'' <? speed s') = true.
Proof.
  intros Ht Hl Hlen h n s' s''.
  destruct (run_descent_profile s t rs Ht Hl Hlen) as (Hd & Ha & Hv).
  fold h s' n in Hd, Ha, Hv.
  pose proof (descent_steps_all descent_step_ok n
                ltac:(vm_compute; reflexivity) ltac:(lia)) as Hok.
  unfold descent_step_ok in Hok.
  apply andb_true_iff in Hok. destruct Hok as (Hok & Hnext).
  apply andb_true_iff in Hok. destruct Hok as (Hpa & Hpv).
  split; [exact Ha |]. split; [exact Hv |].
  rewrite Ha, Hv. split; [exact Hpa |]. split; [exact Hpv |].
  destruct Hd as (_ & _ & Hs & _). fold n in Hs.
  destruct (n <? 99)%Z eqn:En.
  - apply Z.ltb_lt in En.
    destruct (landingIntervalTick_live h r1 r2 s' n Hs
                ltac:(unfold landingSteps; lia)) as (_ & Ha' & Hv' & _).
    fold s'' in Ha', Hv'. rewrite Ha', Hv'.
    apply andb_true_iff in Hnext. exact Hnext.
  - apply Z.ltb_ge in En.
    destruct (landingIntervalTick_final h r1 r2 s' n Hs
                ltac:(unfold landingSteps; lia)) as (_ & Ha' & Hv' & _).
    fold s'' in Ha', Hv'. rewrite Ha', Hv'. split; assumption.
Qed.

Lemma descent_lowers_altitude_and_speed_witness :
  let s := step (OverlayClick 500 300) example_start in
  let s' := run (descent_events 0 [(0.5, 0.5); (0.25, 0.75)]) (startLanding s) in
  selectedTarget s = Some (mkPoint 500 300) /\
  altitude s' = 120 - of_Z 2 * 1.2 /\
  (0 <? altitude s') = true.
Proof.
  cbv zeta.
  pose proof (descent_lowers_altitude_and_speed
                (step (OverlayClick 500 300) example_start) (mkPoint 500 300)
                [(0.5, 0.5); (0.25, 0.75)] 0.5 0.5
                eq_refl eq_refl ltac:(cbn; lia)) as H.
  cbv zeta in H. destruct H as (Ha & _ & Hp & _).
  change (length (landingIntervals (step (OverlayClick 500 300) example_start)))
    with 0%nat in *.
  repeat split; assumption.
Defined.

(** ** Exceptions *)

(** X11: the only handler that throws is the descent callback, and only
    when its timer is live, before its last step, and no target is
    selected (it reads [this.selectedTarget.x]).  By then it has counted
    the step and written altitude and speed; position, info panel and
    everything else are as before. *)
Theorem handler_throws_only_without_target (e : Event) (s : System) :
  fst (handle e s) = ThrewTypeError ->
  selectedTarget s = None /\
  exists h r1 r2 k,
    e = LandingInterval h r1 r2 /\
    slot_get h (landingIntervals s) = Some k /\ (k + 1 < landingSteps)%Z /\
    step e s =
      set_speed (5.2 - of_Z (k + 1) * 0.02)
        (set_altitude (120 - of_Z (k + 1) * 1.2)
           (set_landingIntervals
              (slot_set h (Some (k + 1)%Z) (landingIntervals s)) s)).
Proof.
  destruct e as [cx cy | | | | | | rx ry ra rs | | h r1 r2 | ];
    try discriminate.
  - unfold step, handle, landingIntervalTick.
    destruct (slot_get h (landingIntervals s)) as [k|] eqn:Hs; [| discriminate].
    destruct (landingSteps <=? k + 1)%Z eqn:Hk; [discriminate |].
    cbn [selectedTarget set_speed set_altitude set_landingIntervals].
    destruct (selectedTarget s) as [t|] eqn:Ht; [discriminate |].
    intros _. split; [reflexivity |].
    exists h, r1, r2, k. apply Z.leb_gt in Hk. repeat split; assumption.
  - cbn. destruct (takeoffTimeouts s); discriminate.
Qed.

Lemma handler_throws_only_without_target_witness :
  let s := run stale_completion example_start in
  fst (handle (LandingInterval 1 0.5 0.5) s) = ThrewTypeError /\
  selectedTarget s = None /\
  exists h r1 r2 k,
    LandingInterval 1 0.5 0.5 = LandingInterval h r1 r2 /\
    slot_get h (landingIntervals s) = Some k /\ (k + 1 < landingSteps)%Z.
Proof.
  cbv zeta.
  assert (Hthrow : fst (handle (LandingInterval 1 0.5 0.5)
                          (run stale_completion example_start))
                   = ThrewTypeError) by (vm_compute; reflexivity).
  destruct (handler_throws_only_without_target _ _ Hthrow)
    as (Ht & h & r1 & r2 & k & He & Hs & Hk & _).
  split; [exact Hthrow |]. split; [exact Ht |].
  exists h, r1, r2, k. repeat split; assumption.
Defined.

Lemma step_single_loop e s :
  e <> CancelBtn -> single_loop s -> single_loop (step e s).
Proof.
  unfold single_loop. intros He (Hn & Ht).
  assert (Hlive : forall h k, slot_get h (landingIntervals s) = Some k ->
                              isLanding s = true).
  { intros h k Hs. destruct (isLanding s); [reflexivity |].
    assert (0 < live_timers (landingIntervals s))%nat
      by (apply live_timers_pos; eauto). lia. }
  event_cases e s; try (split; assumption); try contradiction; cbn;
    rewrite ?Elanding in *;
    try solve [split; [assumption
                      | intros Hx; first [discriminate Hx | congruence | auto]]].
  - split; [rewrite live_timers_app, Hn; reflexivity | congruence].
  - split; [exact Hn | intros Hx; elim (Ht Hx); reflexivity].
  - rewrite slot_set_set. split; [| discriminate].
    pose proof (proj2 (live_timers_set h _ _ Eslot)) as H.
    rewrite (Hlive h step0 Eslot) in Hn. lia.
  - split; [| congruence].
    rewrite (proj1 (live_timers_set h _ _ Eslot)). exact Hn.
  - split; [| congruence].
    rewrite (proj1 (live_timers_set h _ _ Eslot)). exact Hn.
  - exfalso. apply (Ht (Hlive h step0 Eslot)). reflexivity.
Qed.

Lemma run_single_loop es : forall s,
  cancel_free es = true -> single_loop s -> single_loop (run es s).
Proof.
  induction es as [|e es IH]; intros s Hes Hs; cbn [run fold_left];
    [exact Hs |].
  cbn in Hes. apply andb_true_iff in Hes. destruct Hes as (He & Hes).
  apply IH; [exact Hes |]. apply step_single_loop; [| exact Hs].
  intros ->. discriminate He.
Qed.

Lemma single_loop_init page : single_loop (newLandingAssistSystem page).
Proof. split; [reflexivity | discriminate]. Qed.

(** X12: as long as the cancel button is never pressed, no handler ever
    throws: after any run of the page without a cancel, every event is
    handled to its normal end. *)
Theorem no_cancel_no_exception (page : Dom) (es : list Event) (e : Event) :
  cancel_free es = true ->
  fst (handle e (run es (newLandingAssistSystem page))) = Returned.
Proof.
  intros Hes.
  destruct (run_single_loop es _ Hes (single_loop_init page)) as (Hn & Ht).
  destruct (fst (handle e _)) eqn:E; [reflexivity | exfalso].
  destruct e as [cx cy | | | | | | rx ry ra rs | | h r1 r2 | ];
    try discriminate E.
  - unfold handle, landingIntervalTick in E.
    destruct (slot_get h _) as [k|] eqn:Hs; [| discriminate E].
    destruct (landingSteps <=? k + 1)%Z; [discriminate E |].
    cbn [selectedTarget set_speed set_altitude set_landingIntervals] in E.
    destruct (selectedTarget _) eqn:Etgt; [discriminate E |].
    apply Ht; [| reflexivity].
    destruct (isLanding _); [reflexivity |].
    assert (0 < live_timers
                  (landingIntervals (run es (newLandingAssistSystem page))))%nat
      by (apply live_timers_pos; eauto).
    lia.
  - cbn in E. destruct (takeoffTimeouts _); discriminate E.
Qed.

Lemma no_cancel_no_exception_witness :
  cancel_free full_descent = true /\
  fst (handle (LandingInterval 0 0.5 0.5)
         (run full_descent (newLandingAssistSystem example_page)))
    = Returned.
Proof.
  split; [reflexivity |].
  exact (no_cancel_no_exception example_page full_descent
           (LandingInterval 0 0.5 0.5) eq_refl).
Defined.

(** X13: as long as the cancel button is never pressed, there is never
    more than one descent loop: a descent timer is live exactly while
    [isLanding] is set, no two timers are live together, and a landing in
    progress has a target. *)
Theorem single_descent_loop_without_cancel (page : Dom) (es : list Event) :
  cancel_free es = true ->
  let s := run es (newLandingAssistSystem page) in
  (isLanding s = true <-> exists h k, slot_get h (landingIntervals s) = Some k) /\
  (forall h h' k k',
     slot_get h (landingIntervals s) = Some k ->
     slot_get h' (landingIntervals s) = Some k' -> h = h') /\
  (isLanding s = true -> selectedTarget s <> None).
Proof.
  intros Hes s.
  destruct (run_single_loop es _ Hes (single_loop_init page)) as (Hn & Ht).
  fold s in Hn, Ht. split; [| split; [| exact Ht]].
  - rewrite <- live_timers_pos, Hn. destruct (isLanding s); split; auto; lia.
  - intros h h' k k' H H'. destruct (Nat.eq_dec h h') as [E | Hne]; [exact E |].
    pose proof (live_timers_two _ h h' k k' H H' Hne).
    destruct (isLanding s); lia.
Qed.

Lemma single_descent_loop_without_cancel_witness :
  let s := run busy_descent (newLandingAssistSystem example_page) in
  cancel_free busy_descent = true /\
  (isLanding s = true <-> exists h k, slot_get h (landingIntervals s) = Some k).
Proof.
  cbv zeta. split; [reflexivity |].
  exact (proj1 (single_descent_loop_without_cancel example_page busy_descent
                  eq_refl)).
Defined.

(** ** Target selection and the info panel *)

(** X14: the last click wins.  Outside manual mode and outside a landing,
    a click on the overlay after another click leaves exactly the state the
    second click alone would have left: target, info panel and land button
    keep no trace of the first. *)
Theorem overlayClick_last_wins (a b c d : float) (s : System) :
  isManualMode s = false -> isLanding s = false ->
  overlayClick c d (overlayClick a b s) = overlayClick c d s.
Proof.
  intros Hm Hl. unfold overlayClick. rewrite Hm, Hl. cbn [orb].
  replace (isManualMode (selectLandingTarget a b s)) with false
    by (symmetry; exact Hm).
  replace (isLanding (selectLandingTarget a b s)) with false
    by (symmetry; exact Hl).
  reflexivity.
Qed.

Lemma overlayClick_last_wins_witness :
  overlayClick 100 200 (overlayClick 500 300 example_start)
  = overlayClick 100 200 example_start.
Proof.
  exact (overlayClick_last_wins 500 300 100 200 example_start eq_refl eq_refl).
Defined.

(** X15: the last step of a descent with a target leaves the info panel
    out of date: [completeLanding] refreshes the panel before it clears the
    target, so the coordinates cell keeps showing the target that is no
    longer selected (with safety level [high], the altitude being 0); the
    next refresh, a change of the landing mode, shows dashes. *)
Theorem completed_landing_leaves_target_on_panel (h : nat) (r1 r2 : float)
  (s : System) (t : Point) (k : Z) :
  slot_get h (landingIntervals s) = Some k -> (landingSteps <= k + 1)%Z ->
  selectedTarget s = Some t ->
  let s' := step (LandingInterval h r1 r2) s in
  selectedTarget s' = None /\
  info_coords (info_panel (dom s'))
    = CoordsXY (Math_round (x t)) (Math_round (y t)) /\
  info_safety (info_panel (dom s')) = high /\
  info_panel (dom (step LandingModeRadio s'))
    = mkInfo CoordsDashes EtaDashes high.
Proof.
  intros Hs Hk Ht. unfold step, handle, landingIntervalTick. rewrite Hs.
  replace (landingSteps <=? k + 1)%Z with true
    by (symmetry; apply Z.leb_le; exact Hk).
  cbn. unfold landingInfo. cbn. rewrite Ht. repeat split; reflexivity.
Qed.

Lemma completed_landing_leaves_target_on_panel_witness :
  let s := run (firstn 101 full_descent) example_start in
  let s' := step (LandingInterval 0 0.5 0.5) s in
  slot_get 0 (landingIntervals s) = Some 99%Z /\
  selectedTarget s = Some (mkPoint 500 300) /\
  selectedTarget s' = None /\
  info_coords (info_panel (dom s')) = CoordsXY 500 300.
Proof.
  cbv zeta.
  assert (Hs : slot_get 0 (landingIntervals
                 (run (firstn 101 full_descent) example_start)) = Some 99%Z)
    by (vm_compute; reflexivity).
  assert (Ht : selectedTarget (run (firstn 101 full_descent) example_start)
               = Some (mkPoint 500 300))
    by (vm_compute; reflexivity).
  destruct (completed_landing_leaves_target_on_panel 0 0.5 0.5 _ _ _
              Hs ltac:(unfold landingSteps; lia) Ht) as (H1 & H2 & _).
  repeat split; assumption.
Defined.

(** ** Cruising *)

Lemma step_cruising e s :
  e <> LandBtn -> unit_draws e = true -> cruising s -> cruising (step e s).
Proof.
  unfold cruising. intros Hne He (Hl & Ht & Hp & Hc).
  pose proof Hp as Hp'. unfold in_viewport in Hp'.
  apply andb_true_iff in Hp'. destruct Hp' as (Hx & Hy).
  pose proof Hc as Hc'. unfold in_cruise_band in Hc'.
  apply andb_true_iff in Hc'. destruct Hc' as (Ha & Hv).
  assert (Hpos : forall rx ry,
            unit_draw rx = true -> unit_draw ry = true ->
            in_viewport
              (mkPoint
                 (Math_max 10 (Math_min 790 (x (currentPosition s) + (rx - 0.5) * 0.5)))
                 (Math_max 10 (Math_min 590 (y (currentPosition s) + (ry - 0.5) * 0.5))))
            = true).
  { intros rx ry Hrx Hry. unfold in_viewport. cbn [x y].
    apply andb_true_iff. split.
    - apply (drift_axis 10 790 _ rx 0.5 false 4503599627370496 (-53));
        [reflexivity | | assumption | reflexivity].
      exact (between_finite 10 790 _ eq_refl eq_refl Hx).
    - apply (drift_axis 10 590 _ ry 0.5 false 4503599627370496 (-53));
        [reflexivity | | assumption | reflexivity].
      exact (between_finite 10 590 _ eq_refl eq_refl Hy). }
  event_cases e s; try contradiction; try congruence;
    try (repeat split; assumption);
    try (rewrite Ht in Eslot; destruct h; discriminate Eslot);
    try (cbn [unit_draws] in He;
         apply andb_true_iff in He; destruct He as (He & Hrs);
         apply andb_true_iff in He; destruct He as (He & Hra);
         apply andb_true_iff in He; destruct He as (Hrx & Hry);
         specialize (Hpos _ _ Hrx Hry));
    unfold in_cruise_band; cbn;
    try (repeat split; assumption).
  - (* drift in the status '飞行中' *)
    repeat split; try assumption. apply andb_true_iff. split.
    + apply (drift_axis 115 125 _ ra 0.2 false 7205759403792794 (-55));
        [reflexivity | | assumption | reflexivity].
      exact (between_finite 115 125 _ eq_refl eq_refl Ha).
    + apply (drift_axis 4.5 6.0 _ rs 0.1 false 7205759403792794 (-56));
        [reflexivity | | assumption | reflexivity].
      exact (between_finite 4.5 6.0 _ eq_refl eq_refl Hv).
Qed.

Lemma run_cruising es : forall s,
  land_free es = true -> forallb unit_draws es = true ->
  cruising s -> cruising (run es s).
Proof.
  induction es as [|e es IH]; intros s Hlf Hes Hs; cbn [run fold_left];
    [exact Hs |].
  cbn in Hlf, Hes.
  apply andb_true_iff in Hlf. destruct Hlf as (Hl & Hlf).
  apply andb_true_iff in Hes. destruct Hes as (He & Hes).
  apply IH; [exact Hlf | exact Hes |].
  apply step_cruising; [| exact He | exact Hs].
  intros ->. discriminate Hl.
Qed.

(** X16: as long as the land button is never pressed, the vehicle keeps
    cruising: after any run of clicks, presses of the take-off, cancel and
    manual buttons, take-off timeouts, drift and battery ticks (with draws
    in [0, 1)), the position is inside the viewport [10,790]x[10,590], the
    altitude inside [115,125], the speed inside [4.5,6.0], and no descent
    is in progress. *)
Theorem cruise_is_kept_without_landing (page : Dom) (es : list Event) :
  land_free es = true -> forallb unit_draws es = true ->
  let s := run es (newLandingAssistSystem page) in
  in_viewport (currentPosition s) = true /\ in_cruise_band s = true /\
  isLanding s = false.
Proof.
  intros Hlf Hes s.
  destruct (run_cruising es (newLandingAssistSystem page) Hlf Hes)
    as (Hl & _ & Hp & Hc).
  - repeat split; reflexivity.
  - repeat split; assumption.
Qed.

Lemma cruise_is_kept_without_landing_witness :
  let s := run cruise_events (newLandingAssistSystem example_page) in
  land_free cruise_events = true /\
  forallb unit_draws cruise_events = true /\
  in_viewport (currentPosition s) = true /\ in_cruise_band s = true.
Proof.
  cbv zeta. split; [reflexivity |]. split; [reflexivity |].
  destruct (cruise_is_kept_without_landing example_page cruise_events
              eq_refl eq_refl) as (Hp & Hc & _).
  split; assumption.
Defined.

(** * The position a descent ends at (C3) *)

(** ** Rounding, in units of the last place *)

Local Open Scope Z_scope.










(** ** Sums, differences and quotients *)




(** ** Order *)








(** ** Coordinates of moderate magnitude *)














Local Close Scope Z_scope.

(** ** The descent *)


Local Open Scope Z_scope.


Local Close Scope Z_scope.



(** ** A descent run to completion (C3) *)



